(** * BET, [bet/calculateP/voronoiBoundingPoints.py]

    A shallow embedding of the Voronoi bounding-point module and the
    properties of its grid generator, edge/point converter, volume
    estimator and density assembler.

    Conventions of the embedding.
    - A float is an exact rational or one of the IEEE special values
      ([npfloat]); rounding is not modelled, and there is no negative zero.
    - A call either returns a value or raises a Python exception
      ([result]); the Python value [None] is [None] of an [option].
    - An array that the docstrings give as one-dimensional is the list of
      its entries, and [sur_domain] is the list of its [(min, max)] rows;
      an array whose number of dimensions matters is its shape together
      with its entries in C (row-major) order ([ndarray]), which is how
      numpy lays it out.
    - An integer array carries its numpy integer type: [2*array] is
      computed in that type and wraps around at its width; a count read
      from the array and increased by a Python int is a Python-sized
      integer.
    - The source is Python 2: [xrange], the [print] statement, and [/] on
      float arrays is the true quotient. *)

From Stdlib Require Import QArith Qcanon Field.
From stdpp Require Import base decidable numbers list strings sorting.

Local Open Scope nat_scope.

(** ** Python results *)

Definition exn := string.

Definition ValueError : exn := "ValueError"%string.
Definition IndexError : exn := "IndexError"%string.
Definition NameError : exn := "NameError"%string.
Definition TypeError : exn := "TypeError"%string.
Definition UnboundLocalError : exn := "UnboundLocalError"%string.

(** The error names of the specification's taxonomy.  No statement of the
    module raises or returns any of them. *)
Definition DomainError : exn := "DomainError"%string.
Definition DegenerateCellError : exn := "DegenerateCellError"%string.

Inductive result (A : Type) : Type :=
  | Return (a : A)
  | Raise (e : exn).
Arguments Return {A} a.
Arguments Raise {A} e.

#[global] Instance result_ret : MRet result := λ A a, Return a.
#[global] Instance result_bind : MBind result := λ A B f m,
  match m with
  | Return a => f a
  | Raise e => Raise e
  end.

#[global] Instance result_eq_dec `{EqDecision A} : EqDecision (result A).
Proof. solve_decision. Defined.

(** [for x in xs: out.append(f x)] *)
Fixpoint for_each {A B} (f : A → result B) (xs : list A) : result (list B) :=
  match xs with
  | [] => Return []
  | x :: xs' => y ← f x; ys ← for_each f xs'; Return (y :: ys)
  end.

(** [l[i]] for [0 <= i] *)
Definition index {A} (l : list A) (i : nat) : result A :=
  match l !! i with
  | Some x => Return x
  | None => Raise IndexError
  end.

(** Reading a local variable: a name that is assigned somewhere in the
    function and read before its first assignment is unbound. *)
Definition read_local {A} (v : option A) : result A :=
  match v with
  | Some x => Return x
  | None => Raise UnboundLocalError
  end.

(** ** Floats *)

Inductive npfloat : Type :=
  | Fin (q : Qc)
  | PInf
  | NInf
  | NaN.

#[global] Instance npfloat_eq_dec : EqDecision npfloat.
Proof. solve_decision. Defined.

(** A natural number as a rational. *)
Definition Qn (n : nat) : Qc := Qc_of_Z (Z.of_nat n).

Definition float_of_nat (n : nat) : npfloat := Fin (Qn n).

(** An integer as a float. *)
Definition float_of_int (z : Z) : npfloat := Fin (Qc_of_Z z).

Definition fneg (x : npfloat) : npfloat :=
  match x with
  | Fin q => Fin (- q)%Qc
  | PInf => NInf
  | NInf => PInf
  | NaN => NaN
  end.

Definition fadd (x y : npfloat) : npfloat :=
  match x, y with
  | Fin a, Fin b => Fin (a + b)%Qc
  | NaN, _ | _, NaN => NaN
  | PInf, NInf | NInf, PInf => NaN
  | PInf, _ | _, PInf => PInf
  | NInf, _ | _, NInf => NInf
  end.

Definition fsub (x y : npfloat) : npfloat := fadd x (fneg y).

(** The infinity with the sign of [q * s], where [s] is the sign of the
    infinite factor; [0 * inf] is [nan]. *)
Definition signed_inf (q : Qc) (positive : bool) : npfloat :=
  if decide (q = 0%Qc) then NaN
  else if bool_decide (0 < q)%Qc then (if positive then PInf else NInf)
  else (if positive then NInf else PInf).

Definition fmul (x y : npfloat) : npfloat :=
  match x, y with
  | Fin a, Fin b => Fin (a * b)%Qc
  | NaN, _ | _, NaN => NaN
  | Fin a, PInf | PInf, Fin a => signed_inf a true
  | Fin a, NInf | NInf, Fin a => signed_inf a false
  | PInf, PInf | NInf, NInf => PInf
  | PInf, NInf | NInf, PInf => NInf
  end.

(** numpy's float division: a zero divisor gives [inf], [-inf] or [nan]
    (and a RuntimeWarning), never an exception. *)
Definition fdiv (x y : npfloat) : npfloat :=
  match x, y with
  | Fin a, Fin b =>
      if decide (b = 0%Qc) then
        (if decide (a = 0%Qc) then NaN
         else if bool_decide (0 < a)%Qc then PInf else NInf)
      else Fin (a / b)%Qc
  | NaN, _ | _, NaN => NaN
  | Fin _, (PInf | NInf) => Fin 0%Qc
  | (PInf | NInf), (PInf | NInf) => NaN
  | PInf, Fin b => if bool_decide (b < 0)%Qc then NInf else PInf
  | NInf, Fin b => if bool_decide (b < 0)%Qc then PInf else NInf
  end.

(** [x <= y]; every comparison with [nan] is false. *)
Definition fle (x y : npfloat) : bool :=
  match x, y with
  | NaN, _ | _, NaN => false
  | Fin a, Fin b => bool_decide (a ≤ b)%Qc
  | NInf, _ | _, PInf => true
  | _, _ => false
  end.

Definition flt (x y : npfloat) : bool :=
  match x, y with
  | NaN, _ | _, NaN => false
  | Fin a, Fin b => bool_decide (a < b)%Qc
  | PInf, _ | _, NInf => false
  | _, _ => true
  end.

Definition fge (x y : npfloat) : bool := fle y x.
Definition fgt (x y : npfloat) : bool := flt y x.

Definition one : npfloat := Fin 1%Qc.
Definition two : npfloat := Fin 2%Qc.
Definition half : npfloat := Fin (1 / 2)%Qc.

(** ** numpy *)

(** The operations of numpy the module calls, modelled from numpy's
    documentation. *)

Record ndarray (A : Type) : Type := NdArray { shape : list nat; data : list A }.
Arguments NdArray {A} shape data.
Arguments shape {A} _.
Arguments data {A} _.

#[global] Instance ndarray_eq_dec `{EqDecision A} : EqDecision (ndarray A).
Proof. solve_decision. Defined.

Definition product (l : list nat) : nat := foldr Nat.mul 1 l.

(** A one-dimensional array given by its entries. *)
Definition array1 {A} (l : list A) : ndarray A := NdArray [length l] l.

(** [a.ravel()] *)
Definition ravel {A} (a : ndarray A) : list A := data a.

(** [np.all] of a flat boolean array. *)
Definition np_all (l : list bool) : bool := foldr andb true l.

(** An elementwise operation on two one-dimensional arrays: equal lengths
    pair up, a length-one array is stretched, anything else cannot be
    broadcast. *)
Definition broadcast {A B C} (f : A → B → C) (a : list A) (b : list B)
    : result (list C) :=
  if decide (length a = length b) then Return (zip_with f a b)
  else match a, b with
       | [x], _ => Return (f x <$> b)
       | _, [y] => Return ((λ x, f x y) <$> a)
       | _, _ => Raise ValueError
       end.

(** [column[:] = v] for a column of [m] entries. *)
Definition assign_column {A} (m : nat) (v : list A) : result (list A) :=
  if decide (length v = m) then Return v
  else match v with
       | [x] => Return (replicate m x)
       | _ => Raise ValueError
       end.

(** [np.linspace(start, stop, num)]: [arange(0, num) * step + start] with
    the last entry set to [stop]. *)
Definition linspace (start stop : npfloat) (num : nat) : list npfloat :=
  match num with
  | 0 => []
  | 1 => [start]
  | S n =>
      let step := fdiv (fsub stop start) (float_of_nat n) in
      ((λ i, fadd (fmul (float_of_nat i) step) start) <$> seq 0 n) ++ [stop]
  end.

(** [np.meshgrid(x_0, ..., x_k, indexing='ij')]: array [d] has shape
    [(len x_0, ..., len x_k)] and entry [x_d[i_d]] at [(i_0, ..., i_k)], so
    in C order the first ladder varies slowest.  [meshgrid_data] gives the
    entries of each array in C order. *)
Fixpoint meshgrid_data {A} (xs : list (list A)) : list (list A) :=
  match xs with
  | [] => []
  | x :: rest =>
      (a ← x; replicate (product (length <$> rest)) a)
        :: ((λ g, mjoin (replicate (length x) g)) <$> meshgrid_data rest)
  end.

Definition meshgrid_ij {A} (xs : list (list A)) : list (ndarray A) :=
  NdArray (length <$> xs) <$> meshgrid_data xs.

(** [np.vstack] of one-dimensional arrays: one row per array. *)
Definition vstack {A} (rows : list (list A)) : result (ndarray A) :=
  match rows with
  | [] => Raise ValueError
  | r :: _ =>
      if forallb (λ r', bool_decide (length r' = length r)) rows
      then Return (NdArray [length rows; length r] (mjoin rows))
      else Raise ValueError
  end.

(** *** Arrays of any dimension *)

(** All positions of an array of the given shape, in C order. *)
Fixpoint indices (sh : list nat) : list (list nat) :=
  match sh with
  | [] => [[]]
  | n :: rest => i ← seq 0 n; (λ idx, i :: idx) <$> indices rest
  end.

(** The offset of position [idx] in the C-order entries. *)
Definition flat_index (sh idx : list nat) : nat :=
  foldl (λ acc ni, acc * ni.1 + ni.2) 0 (zip sh idx).

(** [a[idx]] *)
Definition get {A} (a : ndarray A) (idx : list nat) : option A :=
  data a !! flat_index (shape a) idx.

(** Broadcasting of two shapes, from the last axis backwards: equal
    extents agree, an extent of one stretches, a missing axis counts as
    one. *)
Fixpoint broadcast_rev (s1 s2 : list nat) : option (list nat) :=
  match s1, s2 with
  | [], s | s, [] => Some s
  | a :: s1', b :: s2' =>
      rest ← broadcast_rev s1' s2';
      if decide (a = b) then Some (a :: rest)
      else if decide (a = 1) then Some (b :: rest)
      else if decide (b = 1) then Some (a :: rest)
      else None
  end.

Definition broadcast_shape (s1 s2 : list nat) : option (list nat) :=
  reverse <$> broadcast_rev (reverse s1) (reverse s2).

(** The entry of [a] that lands on position [idx] of the broadcast
    result. *)
Definition broadcast_get {A} (a : ndarray A) (idx : list nat) : option A :=
  let own := drop (length idx - length (shape a)) idx in
  get a (zip_with (λ n i, if decide (n = 1) then 0 else i) (shape a) own).

(** A binary ufunc ([np.greater_equal], [np.less_equal],
    [np.logical_and]).  The inner [None] does not occur for an array that
    has as many entries as its shape says. *)
Definition ufunc2 {A B C} (f : A → B → C) (a : ndarray A) (b : ndarray B)
    : result (ndarray C) :=
  match broadcast_shape (shape a) (shape b) with
  | None => Raise ValueError
  | Some sh =>
      match mapM (λ idx, x ← broadcast_get a idx;
                         y ← broadcast_get b idx;
                         Some (f x y)) (indices sh) with
      | Some d => Return (NdArray sh d)
      | None => Raise ValueError
      end
  end.

(** [np.all(a, axis=1)] *)
Definition all_axis1 (a : ndarray bool) : result (ndarray bool) :=
  match shape a with
  | s0 :: s1 :: rest =>
      Return (NdArray (s0 :: rest)
        ((λ idx, match idx with
                 | i :: r =>
                     np_all ((λ j, default true (get a (i :: j :: r)))
                               <$> seq 0 s1)
                 | [] => true
                 end) <$> indices (s0 :: rest)))
  | _ => Raise ValueError
  end.

(** [a[:, k]] *)
Definition get_column {A} (a : ndarray A) (k : nat) : result (ndarray A) :=
  match shape a with
  | s0 :: s1 :: rest =>
      if decide (k < s1) then
        Return (NdArray (s0 :: rest)
          (omap (λ idx, match idx with
                        | i :: r => get a (i :: k :: r)
                        | [] => None
                        end) (indices (s0 :: rest))))
      else Raise IndexError
  | _ => Raise IndexError
  end.

(** [a[:k,]] *)
Definition first_rows {A} (a : ndarray A) (k : nat) : result (ndarray A) :=
  match shape a with
  | s0 :: rest =>
      Return (NdArray (min k s0 :: rest) (take (min k s0 * product rest) (data a)))
  | [] => Raise IndexError
  end.

(** The array made of the one-element Python list [[a]]. *)
Definition wrap {A} (a : ndarray A) : ndarray A := NdArray (1 :: shape a) (data a).

(** Consecutive pieces of [w] entries. *)
Fixpoint chunks {A} (n w : nat) (l : list A) : list (list A) :=
  match n with
  | 0 => []
  | S n' => take w l :: chunks n' w (drop w l)
  end.

(** [np.repeat(a, n, 0)] *)
Definition repeat_axis0 {A} (a : ndarray A) (n : nat) : result (ndarray A) :=
  match shape a with
  | s0 :: rest =>
      Return (NdArray (s0 * n :: rest)
        (slab ← chunks s0 (product rest) (data a); mjoin (replicate n slab)))
  | [] => Raise ValueError
  end.

(** [a[mask]] for a one-dimensional [a] and a boolean [mask]: the mask
    must have the shape of [a]. *)
Definition mask_select {A} (a : list A) (mask : ndarray bool)
    : result (list A) :=
  if decide (shape mask = [length a])
  then Return ((filter (λ xm, xm.2 = true) (zip a (data mask))).*1)
  else Raise IndexError.

Fixpoint mask_put {A} (a : list A) (mask : list bool) (vals : list A) : list A :=
  match a, mask with
  | x :: a', true :: mask' =>
      match vals with
      | v :: vals' => v :: mask_put a' mask' vals'
      | [] => x :: mask_put a' mask' []
      end
  | x :: a', false :: mask' => x :: mask_put a' mask' vals
  | _, _ => a
  end.

(** [a[mask] = vals] for a one-dimensional [a] and a boolean [mask]. *)
Definition mask_assign {A} (a : list A) (mask : ndarray bool) (vals : list A)
    : result (list A) :=
  if decide (shape mask = [length a])
  then Return (mask_put a (data mask) vals)
  else Raise IndexError.

(** [np.zeros((n,))] *)
Definition zeros (n : nat) : list npfloat := replicate n (Fin 0%Qc).

(** [np.sum] *)
Definition np_sum (l : list npfloat) : npfloat := foldl fadd (Fin 0%Qc) l.

(** *** Histograms *)

(** The number of bins of a ladder of edges. *)
Definition nbins (e : list npfloat) : nat := length e - 1.

(** The bin of [x] in the increasing ladder [e]: bin [i] is
    [e_i <= x < e_(i+1)], the last bin also holds its right edge, and a
    value outside the ladder has no bin.  (numpy compares with the right
    edge after rounding both to a few decimals beyond the narrowest bin;
    the comparison is exact here.) *)
Definition bin_of (e : list npfloat) (x : npfloat) : option nat :=
  let k := length (filter (λ ei, fle ei x = true) e) in
  if decide (k = 0) then None
  else if decide (k ≤ nbins e) then Some (k - 1)
  else if bool_decide (last e = Some x) && bool_decide (0 < nbins e)
       then Some (nbins e - 1)
  else None.

(** The position of the cell of point [p] in the flattened (C order)
    histogram. *)
Fixpoint flat_bin (bins : list (list npfloat)) (p : list npfloat) : option nat :=
  match bins, p with
  | [], [] => Some 0
  | e :: bins', x :: p' =>
      i ← bin_of e x;
      r ← flat_bin bins' p';
      Some (i * product (nbins <$> bins') + r)
  | _, _ => None
  end.

(** [np.any(np.diff(e) <= 0)] *)
Definition has_empty_bin (e : list npfloat) : bool :=
  existsb (λ d, fle d (Fin 0%Qc)) (zip_with fsub (tail e) (removelast e)).

(** [np.histogramdd(sample, bins, normed=False)] for explicit edges: the
    counts as floats, one per cell.  The sample is the list of its rows.
    numpy rejects a row width other than the number of ladders, a ladder
    with a bin of width zero or less, and (when it looks for the narrowest
    bin) a ladder without a bin. *)
Definition histogramdd_accepts (sample bins : list (list npfloat)) : bool :=
  bool_decide (bins ≠ [])
  && forallb (λ p, bool_decide (length p = length bins)) sample
  && forallb (λ e, bool_decide (2 ≤ length e) && negb (has_empty_bin e)) bins.

(** The number of rows of the sample that fall in the cell at position [j]
    of the flattened histogram. *)
Definition cell_count (bins sample : list (list npfloat)) (j : nat) : nat :=
  length (filter (λ p, flat_bin bins p = Some j) sample).

Definition histogramdd (sample : list (list npfloat)) (bins : list (list npfloat))
    : result (ndarray npfloat) :=
  if histogramdd_accepts sample bins then
    let sh := nbins <$> bins in
    Return (NdArray sh
      ((λ j, float_of_nat (cell_count bins sample j)) <$> seq 0 (product sh)))
  else Raise ValueError.

(** The sample [np.histogramdd] reads from an array: the rows of a
    two-dimensional array; an array that does not unpack as [(N, D)] goes
    through [np.atleast_2d(sample).T], which turns a one-dimensional array
    into one column and fails to unpack for three dimensions or more. *)
Definition sample_rows {A} (a : ndarray A) : result (list (list A)) :=
  match shape a with
  | [n; d] => Return (chunks n d (data a))
  | [] | [_] => Return ((λ x, [x]) <$> data a)
  | _ => Raise ValueError
  end.

(** ** Arguments *)

(** numpy's integer types, their width and their range. *)
Inductive int_dtype : Type :=
  | int8 | int16 | int32 | int64 | uint8 | uint16 | uint32 | uint64.

#[global] Instance int_dtype_eq_dec : EqDecision int_dtype.
Proof. solve_decision. Defined.

Definition bits (dt : int_dtype) : Z :=
  match dt with
  | int8 | uint8 => 8
  | int16 | uint16 => 16
  | int32 | uint32 => 32
  | int64 | uint64 => 64
  end.

Definition signed (dt : int_dtype) : bool :=
  match dt with
  | int8 | int16 | int32 | int64 => true
  | uint8 | uint16 | uint32 | uint64 => false
  end.

Definition dtype_min (dt : int_dtype) : Z :=
  if signed dt then - 2 ^ (bits dt - 1) else 0.
Definition dtype_max (dt : int_dtype) : Z :=
  if signed dt then 2 ^ (bits dt - 1) - 1 else 2 ^ bits dt - 1.

(** What an integer operation of type [dt] stores for the exact result
    [z]: numpy wraps around without an error. *)
Definition wrap_to (dt : int_dtype) (z : Z) : Z :=
  (z - dtype_min dt) mod 2 ^ bits dt + dtype_min dt.

(** [center_pts_per_edge] is documented as a [list()] and used as an integer
    array: a Python list of counts, or an array of counts of one of numpy's
    integer types. *)
Inductive int_seq : Type :=
  | PyList (l : list nat)
  | IntArray (dt : int_dtype) (l : list nat).

Definition items (s : int_seq) : list nat :=
  match s with PyList l | IntArray _ l => l end.

(** [2*s]: a Python list is repeated; an array is doubled entry by entry
    in its own type, which the Python int 2 does not widen, so the doubled
    entry wraps around at the width of the type. *)
Definition times2 (s : int_seq) : list Z :=
  match s with
  | PyList l => Z.of_nat <$> (l ++ l)
  | IntArray dt l => (λ n, wrap_to dt (2 * Z.of_nat n)) <$> l
  end.

(** ** The grid generator *)

Module VoronoiBoundingPoints.

(** Lines 32-55 (the same text as lines 119-142): the ratio test, the
    hyperrectangle, the two containment tests and the anchors of the first
    bounding layer.  [None] is the function's [return None]. *)
Definition layer1_bounds (center_pts_per_edge : int_seq) (center : list npfloat)
    (r_ratio : npfloat) (sur_domain : list (npfloat * npfloat))
    : result (option (list npfloat * list npfloat)) :=
  if fgt r_ratio one then Return None
  else
    let sur_width := zip_with fsub (sur_domain.*2) (sur_domain.*1) in
    let rect_width := fmul r_ratio <$> sur_width in
    rect_lo ← (v ← broadcast fsub center (fmul half <$> rect_width);
               assign_column (length sur_domain) v);
    rect_hi ← (v ← broadcast fadd center (fmul half <$> rect_width);
               assign_column (length sur_domain) v);
    if np_all (zip_with fge (sur_domain.*1) rect_lo) then Return None
    else if np_all (zip_with fle (sur_domain.*2) rect_hi) then Return None
    else
      margin_l ← broadcast fdiv rect_width
                   (float_of_int <$> times2 center_pts_per_edge);
      layer1_left ← broadcast fsub rect_lo margin_l;
      margin_r ← broadcast fdiv rect_width
                   (float_of_int <$> times2 center_pts_per_edge);
      layer1_right ← broadcast fadd rect_hi margin_r;
      Return (Some (layer1_left, layer1_right)).

(** Lines 66-84 (the same text as lines 173-191): the hand-unrolled
    meshgrid.  In the source the first statement of the four-dimensional
    branch (line 78, line 185) is indented one column deeper than the
    second, which the interpreter refuses; the two statements are read as
    the body of that branch.  The [print] of the last branch is not
    modelled. *)
Definition mesh_points (mdim : nat) (ladders : list (list npfloat))
    : result (option (ndarray npfloat)) :=
  match mdim with
  | 1 => a ← index ladders 0; Return (Some (array1 a))
  | 2 =>
      a ← index ladders 0; b ← index ladders 1;
      match meshgrid_ij [a; b] with
      | [x; y] => p ← vstack [ravel x; ravel y]; Return (Some p)
      | _ => Raise ValueError
      end
  | 3 =>
      a ← index ladders 0; b ← index ladders 1; c ← index ladders 2;
      match meshgrid_ij [a; b; c] with
      | [x; y; z] => p ← vstack [ravel x; ravel y; ravel z]; Return (Some p)
      | _ => Raise ValueError
      end
  | 4 =>
      a ← index ladders 0; b ← index ladders 1; c ← index ladders 2;
      d ← index ladders 3;
      match meshgrid_ij [a; b; c; d] with
      | [x; y; z; u] =>
          p ← vstack [ravel x; ravel y; ravel z; ravel u]; Return (Some p)
      | _ => Raise ValueError
      end
  | _ => Return None
  end.

Definition center_and_layer1_points (center_pts_per_edge : int_seq)
    (center : list npfloat) (r_ratio : npfloat)
    (sur_domain : list (npfloat * npfloat))
    : result (option (option (ndarray npfloat) * list (list npfloat))) :=
  bounds ← layer1_bounds center_pts_per_edge center r_ratio sur_domain;
  match bounds with
  | None => Return None
  | Some (layer1_left, layer1_right) =>
      interior_and_layer1 ←
        for_each (λ dim,
          a ← index layer1_left dim;
          b ← index layer1_right dim;
          n ← index (items center_pts_per_edge) dim;
          Return (linspace a b (n + 2)))
        (seq 0 (length sur_domain));
      points ← mesh_points (length sur_domain) interior_and_layer1;
      Return (Some (points, interior_and_layer1))
  end.

Definition center_and_layer2_points (center_pts_per_edge : int_seq)
    (center : list npfloat) (r_ratio : npfloat)
    (sur_domain : list (npfloat * npfloat))
    : result (option (option (ndarray npfloat)
                      * list (list npfloat) * list (list npfloat))) :=
  bounds ← layer1_bounds center_pts_per_edge center r_ratio sur_domain;
  match bounds with
  | None => Return None
  | Some (layer1_left, layer1_right) =>
      (* lines 144-152 *)
      layer2 ←
        (if flt r_ratio one then
           dist2sur_left ← broadcast fsub (sur_domain.*1) layer1_left;
           dist2sur_right ← broadcast fsub (sur_domain.*2) layer1_right;
           layer2_left ←
             broadcast fadd layer1_left (fmul two <$> dist2sur_left);
           (* layer2_right = layer2_right + 2*dist2sur_right *)
           old_layer2_right ← read_local (None : option (list npfloat));
           layer2_right ←
             broadcast fadd old_layer2_right (fmul two <$> dist2sur_right);
           Return (Some layer2_left, Some layer2_right)
         else Return (None, None));
      let '(layer2_left, layer2_right) := layer2 in
      (* lines 154-169 *)
      ladders ←
        for_each (λ dim,
          a ← index layer1_left dim;
          b ← index layer1_right dim;
          n ← index (items center_pts_per_edge) dim;
          let int_l1 := linspace a b (n + 2) in
          if flt r_ratio one then
            l2l ← read_local layer2_left;
            first ← index l2l dim;
            l2r ← read_local layer2_right;
            last ← index l2r dim;
            Return (int_l1, [first] ++ int_l1 ++ [last])
          else Return (int_l1, int_l1))
        (seq 0 (length sur_domain));
      let interior_and_layer1 := ladders.*1 in
      let interior_and_doublelayer := ladders.*2 in
      points ← mesh_points (length sur_domain) interior_and_doublelayer;
      Return (Some (points, interior_and_layer1, interior_and_doublelayer))
  end.

(** ** The edge/point converter *)

(** [(a[1:] + a[:-1]) / 2] *)
Definition midpoints (a : list npfloat) : list npfloat :=
  (λ s, fdiv s two) <$> zip_with fadd (tail a) (removelast a).

Definition edges_from_points (points : list (list npfloat))
    : list (list npfloat) :=
  midpoints <$> points.

(** The names bound at module level: the one import and the functions. *)
Definition module_globals : list string :=
  ["np"; "center_and_layer1_points"; "center_and_layer2_points";
   "edges_regular"; "edges_from_points"; "points_from_edges";
   "histogramdd_volumes"; "simple_fun_approximation_uniform"]%string.

(** Reading a name that is neither local nor a builtin. *)
Definition read_global (name : string) : result unit :=
  if bool_decide (name ∈ module_globals) then Return () else Raise NameError.

(** The body computes [centers], then evaluates [np.empty(dimensions)] and
    ends without a [return]. *)
Definition points_from_edges (edges : list (list npfloat))
    : result (option (list (list npfloat))) :=
  let centers := midpoints <$> edges in
  _ ← read_global "dimensions"%string;
  Return None.

(** ** Regular edges *)

(** Lines 227-246 (the same text as lines 32-51): the ratio test, the
    hyperrectangle and the two containment tests. *)
Definition hyperrectangle (center : list npfloat) (r_ratio : npfloat)
    (sur_domain : list (npfloat * npfloat))
    : result (option (list npfloat * list npfloat)) :=
  if fgt r_ratio one then Return None
  else
    let sur_width := zip_with fsub (sur_domain.*2) (sur_domain.*1) in
    let rect_width := fmul r_ratio <$> sur_width in
    rect_lo ← (v ← broadcast fsub center (fmul half <$> rect_width);
               assign_column (length sur_domain) v);
    rect_hi ← (v ← broadcast fadd center (fmul half <$> rect_width);
               assign_column (length sur_domain) v);
    if np_all (zip_with fge (sur_domain.*1) rect_lo) then Return None
    else if np_all (zip_with fle (sur_domain.*2) rect_hi) then Return None
    else Return (Some (rect_lo, rect_hi)).

(** [name[i, k]] for a name that is not local to the function.  The names
    bound at module level are a module and functions, and none of them can
    be subscripted. *)
Definition subscript_global (name : string) : result npfloat :=
  _ ← read_global name; Raise TypeError.

(** The loop of lines 250-263 reads [rect], where lines 235-237 fill
    [rect_domain]. *)
Definition edges_regular (center_pts_per_edge : int_seq)
    (center : list npfloat) (r_ratio : npfloat)
    (sur_domain : list (npfloat * npfloat))
    : result (option (list (list npfloat))) :=
  rect_domain ← hyperrectangle center r_ratio sur_domain;
  match rect_domain with
  | None => Return None
  | Some _ =>
      ladders ←
        for_each (λ dim,
          a ← subscript_global "rect"%string;
          b ← subscript_global "rect"%string;
          n ← index (items center_pts_per_edge) dim;
          let int_l1 := linspace a b (n + 1) in
          if flt r_ratio one then
            bounds ← index sur_domain dim;
            Return (int_l1, [bounds.1] ++ int_l1 ++ [bounds.2])
          else Return (int_l1, int_l1))
        (seq 0 (length sur_domain));
      let rect_edges := ladders.*1 in
      let rect_and_sur_edges := ladders.*2 in
      Return (Some rect_and_sur_edges)
  end.

(** ** The volume estimator *)

Definition histogramdd_volumes (edges : list (list npfloat))
    (points : list (list npfloat)) : result (list npfloat) :=
  H ← histogramdd points edges;
  let volume :=
    NdArray (shape H)
      ((λ h, fdiv one (fmul h (float_of_nat (length points)))) <$> data H) in
  Return (ravel volume).

(** [histogramdd_volumes(edges, points)] for [points] given as an array:
    [np.histogramdd] reads its rows as the sample. *)
Definition histogramdd_volumes_of_array (edges : list (list npfloat))
    (points : ndarray npfloat) : result (list npfloat) :=
  rows ← sample_rows points;
  histogramdd_volumes edges rows.

(** ** The density assembler *)

(** What [spatial.KDTree(points)] would hold. *)
Record KDTree : Type := { tree_points : ndarray npfloat }.

#[global] Instance KDTree_eq_dec : EqDecision KDTree.
Proof. solve_decision. Defined.

(** Lines 358-362: the mask of the points inside the hyperrectangle. *)
Definition inside_mask (points rect_domain : ndarray npfloat)
    : result (ndarray bool) :=
  lows ← get_column rect_domain 0;
  n ← index (shape points) 0;
  rect_left ← repeat_axis0 (wrap lows) n;
  row0 ← first_rows rect_domain 1;
  n ← index (shape points) 0;
  rect_right ← repeat_axis0 (wrap row0) n;
  ge ← ufunc2 fge points rect_left;
  rect_left ← all_axis1 ge;
  le ← ufunc2 fle points rect_right;
  rect_right ← all_axis1 le;
  ufunc2 andb rect_left rect_right.

(** Lines 363-364: the density of a mask.  [volumes] is the
    one-dimensional array of its docstring. *)
Definition density_of_mask (volumes : list npfloat) (inside : ndarray bool)
    : result (list npfloat) :=
  let rho_D_M := zeros (length volumes) in
  selected ← mask_select volumes inside;
  summed ← mask_select volumes inside;
  mask_assign rho_D_M inside ((λ v, fdiv v (np_sum summed)) <$> selected).

Definition simple_fun_approximation_uniform
    (points : ndarray npfloat) (volumes : list npfloat)
    (rect_domain : ndarray npfloat)
    : result (list npfloat * ndarray npfloat * KDTree) :=
  inside ← inside_mask points rect_domain;
  rho_D_M ← density_of_mask volumes inside;
  (* d_Tree = spatial.KDTree(points) *)
  _ ← read_global "spatial"%string;
  Return (rho_D_M, points, {| tree_points := points |}).

End VoronoiBoundingPoints.

(** ** Vocabulary of the statements *)

Import VoronoiBoundingPoints.

(** [l[1:-1]], the elements 1..-2 of a ladder. *)
Definition interior {A} (l : list A) : list A := removelast (tail l).

(** One dimension of a well-shaped call of the grid generator: the entry
    of [center_pts_per_edge], the entry of [center] and the row of
    [sur_domain], all finite. *)
Record axis : Type := Axis { cells : nat; mid : Qc; low : Qc; high : Qc }.

Definition cpe_of (dt : int_dtype) (axes : list axis) : int_seq :=
  IntArray dt (cells <$> axes).
Definition center_of (axes : list axis) : list npfloat :=
  (λ a, Fin (mid a)) <$> axes.
Definition domain_of (axes : list axis) : list (npfloat * npfloat) :=
  (λ a, (Fin (low a), Fin (high a))) <$> axes.

(** The hyperrectangle of ratio [r] along one axis and the half-cell
    margin [rect_width / (2 * cellsPerEdge)]. *)
Definition rect_width (r : Qc) (a : axis) : Qc := (r * (high a - low a))%Qc.
Definition rect_low (r : Qc) (a : axis) : Qc :=
  (mid a - 1 / 2 * rect_width r a)%Qc.
Definition rect_high (r : Qc) (a : axis) : Qc :=
  (mid a + 1 / 2 * rect_width r a)%Qc.
Definition margin (r : Qc) (a : axis) : Qc :=
  (rect_width r a / Qn (2 * cells a))%Qc.

(** Twice the count of the axis is a value of the integer type [dt], so
    that [2*center_pts_per_edge] does not wrap around. *)
Definition doubles_within (dt : int_dtype) (a : axis) : Prop :=
  (2 * Z.of_nat (cells a) ≤ dtype_max dt)%Z.

(** The margin, the anchors of the first layer and its ladder as the code
    computes them from counts held in an array of type [dt]. *)
Definition margin_of (dt : int_dtype) (r : Qc) (a : axis) : npfloat :=
  fdiv (Fin (rect_width r a)) (float_of_int (wrap_to dt (2 * Z.of_nat (cells a)))).
Definition anchor_left (dt : int_dtype) (r : Qc) (a : axis) : npfloat :=
  fsub (Fin (rect_low r a)) (margin_of dt r a).
Definition anchor_right (dt : int_dtype) (r : Qc) (a : axis) : npfloat :=
  fadd (Fin (rect_high r a)) (margin_of dt r a).
Definition ladder_of (dt : int_dtype) (r : Qc) (a : axis) : list npfloat :=
  linspace (anchor_left dt r a) (anchor_right dt r a) (cells a + 2).

(** Both faces of the hyperrectangle lie strictly inside the domain. *)
Definition strictly_inside (r : Qc) (a : axis) : Prop :=
  (low a < rect_low r a)%Qc ∧ (rect_high r a < high a)%Qc.

(** The ladder of the first bounding layer along one axis. *)
Definition layer1_ladder (r : Qc) (a : axis) : list npfloat :=
  linspace (Fin (rect_low r a - margin r a)) (Fin (rect_high r a + margin r a))
    (cells a + 2).

(** The Cartesian product of the ladders, the first ladder varying
    slowest (row-major order): one point per entry. *)
Fixpoint cartesian {A} (xs : list (list A)) : list (list A) :=
  match xs with
  | [] => [[]]
  | x :: rest => a ← x; (λ p, a :: p) <$> cartesian rest
  end.


(** A point lies in the target region when each coordinate lies within
    the bounds of its dimension, both included. *)
Definition in_region (region : list (npfloat * npfloat)) (p : list npfloat)
    : bool :=
  bool_decide (length p = length region)
  && np_all (zip_with (λ b x, fle b.1 x && fle x b.2) region p).

(** The two-dimensional array with the given rows of [ncols] entries. *)
Definition array2 {A} (ncols : nat) (rows : list (list A)) : ndarray A :=
  NdArray [length rows; ncols] (mjoin rows).

(** A region as the array of its [(min, max)] rows. *)
Definition region_array (region : list (npfloat * npfloat)) : ndarray npfloat :=
  array2 2 ((λ b, [b.1; b.2]) <$> region).

(** The exceptions a computation can end in. *)
Definition raises_within {A} (es : list exn) (m : result A) : Prop :=
  match m with
  | Raise e => e ∈ es
  | Return _ => True
  end.

(** What the array operations raise. *)
Definition array_errors : list exn := [ValueError; IndexError].

(** ** Concrete inputs *)

(** The float [num/den]. *)
Definition q (num : Z) (den : positive) : npfloat := Fin (Q2Qc (num # den)).

(** The domain [[0,1],[0,1]] with center [0.5,0.5] and two cells per edge,
    and its ladder for ratio 0.5. *)
Definition unit_square : list axis :=
  [Axis 2 (Q2Qc (1 # 2)) 0%Qc 1%Qc; Axis 2 (Q2Qc (1 # 2)) 0%Qc 1%Qc].
Definition unit_ladder : list npfloat := [q 1 8; q 3 8; q 5 8; q 7 8].

(** The domain [[0,1]] with center [0.5] and two cells. *)
Definition unit_interval : list axis := [Axis 2 (Q2Qc (1 # 2)) 0%Qc 1%Qc].


(** Two cells on a line and two points, both in the first cell. *)
Definition line_edges : list (list npfloat) := [[q 0 1; q 1 1; q 2 1]].
Definition crowded_points : list (list npfloat) := [[q 1 2]; [q 1 4]].

(** The unit square as a target region, three points inside it, three
    points outside it, and a volume of one third for each. *)
Definition unit_region : list (npfloat * npfloat) :=
  [(q 0 1, q 1 1); (q 0 1, q 1 1)].
Definition inner_rows : list (list npfloat) :=
  [[q 1 2; q 1 2]; [q 1 4; q 1 4]; [q 3 4; q 3 4]].
Definition third_each : list npfloat := [q 1 3; q 1 3; q 1 3].

Ltac raises_cases :=
  repeat case_match; cbn; auto; unfold array_errors;
  first [ by left | by (right; left) ].

(** ** More vocabulary *)

(** The arithmetic progression [s, s + step, ...] of [n] entries. *)
Definition progression (s step : Qc) (n : nat) : list Qc :=
  (λ j, Qn j * step + s)%Qc <$> seq 0 n.

(** The ladder of the first layer as rationals. *)
Definition layer1_rungs (r : Qc) (a : axis) : list Qc :=
  progression (rect_low r a - margin r a)%Qc (rect_width r a / Qn (cells a))%Qc
    (cells a + 2).

(** The sum of a list of rationals. *)
Definition Qsum (l : list Qc) : Qc := foldr Qcplus 0%Qc l.

(** A ladder of finite floats. *)
Definition finite (l : list Qc) : list npfloat := Fin <$> l.

(** The rows of the regular grid of the interior points of the ladders,
    in row-major order. *)
Definition grid_rows (ladders : list (list Qc)) : list (list npfloat) :=
  cartesian ((λ l, finite (interior l)) <$> ladders).

(** The volumes of the points inside, and the density lines 363-364 give
    each point when the sum of those volumes is [s]. *)
Definition inside_volumes (vs : list Qc) (mask : list bool) : list Qc :=
  (filter (λ xm, xm.2 = true) (zip vs mask)).*1.
Definition scaled_inside (s : Qc) (vs : list Qc) (mask : list bool) : list Qc :=
  zip_with (λ v (b : bool), if b then (v / s)%Qc else 0%Qc) vs mask.

(** ** More inputs *)

(** The unit square with a center near one corner: the hyperrectangle of
    ratio 0.5 leaves the domain on the low side of the first axis and on
    the high side of the second. *)
Definition skewed_square : list axis :=
  [Axis 2 (Q2Qc (1 # 10)) 0%Qc 1%Qc; Axis 2 (Q2Qc (9 # 10)) 0%Qc 1%Qc].

(** Five dimensions, one cell each. *)
Definition unit_cube5 : list axis :=
  replicate 5 (Axis 1 (Q2Qc (1 # 2)) 0%Qc 1%Qc).

(** Two ladders that are not evenly spaced. *)
Definition uneven_ladders : list (list Qc) :=
  [[0; 1; Q2Qc 3; Q2Qc 7]; [0; Q2Qc 2; Q2Qc 3]]%Qc.

(** The ladder 0, 1, 2, 3. *)
Definition four_rungs : list npfloat := finite (progression 0 1 4).

(** * Properties *)

(** ** Rationals and floats *)

Lemma Qn_S (n : nat) : Qn (S n) = (Qn n + 1)%Qc.
Proof. unfold Qn. by rewrite Nat2Z.inj_succ, <-Z.add_1_r, Z2Qc_inj_add, Z2Qc_inj_1. Qed.

Lemma Qn_0 : Qn 0 = 0%Qc.
Proof. apply Z2Qc_inj_0. Qed.

Lemma Qn_nonzero (n : nat) : 0 < n → Qn n ≠ 0%Qc.
Proof.
  intros Hn. unfold Qn. rewrite <-Z2Qc_inj_0, Z2Qc_inj_iff. lia.
Qed.

Lemma Qn_double (n : nat) : Qn (2 * n) = (2 * Qn n)%Qc.
Proof.
  unfold Qn. rewrite Nat2Z.inj_mul, Z2Qc_inj_mul.
  change (Z.of_nat 2) with 2%Z. by rewrite Z2Qc_inj_2.
Qed.

Lemma fdiv_fin (a b : Qc) : b ≠ 0%Qc → fdiv (Fin a) (Fin b) = Fin (a / b)%Qc.
Proof. intros Hb. simpl. by rewrite decide_False. Qed.

(** ** Arrays and loops *)

Lemma broadcast_fmap {A B C D} (f : A → B → C) (g : D → A) (h : D → B) l :
  broadcast f (g <$> l) (h <$> l) = Return ((λ x, f (g x) (h x)) <$> l).
Proof.
  unfold broadcast. rewrite decide_True by by rewrite !length_fmap.
  by rewrite zip_with_fmap_l, zip_with_fmap_r, zip_with_diag.
Qed.

Lemma zip_with_fmap_same {A B C D} (f : A → B → C) (g : D → A) (h : D → B) l :
  zip_with f (g <$> l) (h <$> l) = (λ x, f (g x) (h x)) <$> l.
Proof. by rewrite zip_with_fmap_l, zip_with_fmap_r, zip_with_diag. Qed.

Lemma assign_column_fmap {A D E} (g : D → A) (h : D → E) l :
  assign_column (length (h <$> l)) (g <$> l) = Return (g <$> l).
Proof. unfold assign_column. by rewrite decide_True by by rewrite !length_fmap. Qed.

Lemma np_all_fmap_true {A} (f : A → bool) l :
  Forall (λ x, f x = true) l → np_all (f <$> l) = true.
Proof.
  induction 1 as [|x l Hx _ IH]; [done|].
  change (f x && np_all (f <$> l) = true). by rewrite Hx, IH.
Qed.

Lemma np_all_fmap_false {A} (f : A → bool) l :
  l ≠ [] → Forall (λ x, f x = false) l → np_all (f <$> l) = false.
Proof.
  destruct l as [|x l']; [done|]. intros _ Hall.
  apply Forall_cons_1 in Hall as [Hx _].
  change (f x && np_all (f <$> l') = false). by rewrite Hx.
Qed.

Lemma np_all_fmap_exists {A} (f : A → bool) l :
  Exists (λ x, f x = false) l → np_all (f <$> l) = false.
Proof.
  induction 1 as [x l Hx|x l _ IH].
  - change (f x && np_all (f <$> l) = false). by rewrite Hx.
  - change (f x && np_all (f <$> l) = false). rewrite IH. apply andb_false_r.
Qed.

Lemma for_each_seq {A B} (G : nat → result B) (H : A → B) (l : list A) k :
  (∀ i x, l !! i = Some x → G (k + i) = Return (H x)) →
  for_each G (seq k (length l)) = Return (H <$> l).
Proof.
  revert k. induction l as [|x l IH]; intros k HG; [reflexivity|].
  cbn [length seq for_each].
  rewrite <-(Nat.add_0_r k) at 1. rewrite (HG 0 x eq_refl).
  cbn [mbind result_bind].
  rewrite (IH (S k)); [reflexivity|].
  intros i y Hi. replace (S k + i) with (k + S i) by lia. by apply HG.
Qed.

Lemma index_fmap {A B} (f : A → B) (l : list A) i x :
  l !! i = Some x → index (f <$> l) i = Return (f x).
Proof. intros Hi. unfold index. by rewrite list_lookup_fmap, Hi. Qed.

Lemma length_bind_replicate {A} (x : list A) n :
  length (a ← x; replicate n a) = length x * n.
Proof.
  induction x as [|a x IH]; [done|].
  change (length (replicate n a ++ (x ≫= λ a, replicate n a)) = n + length x * n).
  by rewrite length_app, length_replicate, IH.
Qed.

Lemma length_join_replicate {A} (g : list A) n :
  length (mjoin (replicate n g)) = n * length g.
Proof.
  induction n as [|n IH]; [done|].
  change (length (g ++ mjoin (replicate n g)) = length g + n * length g).
  by rewrite length_app, IH.
Qed.

Lemma length_meshgrid_data {A} (xs : list (list A)) :
  Forall (λ g, length g = product (length <$> xs)) (meshgrid_data xs).
Proof.
  induction xs as [|x rest IH]; [constructor|].
  cbn [meshgrid_data]. constructor.
  - by rewrite length_bind_replicate.
  - apply Forall_fmap. eapply Forall_impl; [exact IH|].
    intros g Hg. cbn. by rewrite length_join_replicate, Hg.
Qed.

Lemma vstack_same_length {A} (rows : list (list A)) n :
  rows ≠ [] → Forall (λ r, length r = n) rows →
  vstack rows = Return (NdArray [length rows; n] (mjoin rows)).
Proof.
  destruct rows as [|r rows]; [done|]. intros _ Hall. unfold vstack.
  assert (length r = n) as Hr by by apply Forall_cons_1 in Hall as [? _].
  rewrite Hr.
  assert (forallb (λ r', bool_decide (length r' = n)) (r :: rows) = true) as ->;
    [|done].
  apply forallb_forall. intros r' Hin. apply bool_decide_eq_true.
  rewrite Forall_forall in Hall. apply Hall. by apply list_elem_of_In.
Qed.

Lemma meshgrid_data_cons_ne {A} (x : list A) rest : meshgrid_data (x :: rest) ≠ [].
Proof. discriminate. Qed.

(** For two to four ladders the hand-unrolled branches stack the raveled
    meshgrid arrays: one row per dimension. *)
Lemma mesh_points_stack (ladders : list (list npfloat)) :
  2 ≤ length ladders ≤ 4 →
  mesh_points (length ladders) ladders =
  Return (Some (NdArray [length ladders; product (length <$> ladders)]
                  (mjoin (meshgrid_data ladders)))).
Proof.
  intros Hlen.
  pose proof (length_meshgrid_data ladders) as Hall.
  destruct ladders as [|a [|b [|c [|d [|e ?]]]]]; simpl in Hlen; try lia.
  - change (mesh_points (length [a; b]) [a; b])
      with (p ← vstack (meshgrid_data [a; b]); Return (Some p)).
    rewrite (vstack_same_length _ _ (meshgrid_data_cons_ne _ _) Hall). reflexivity.
  - change (mesh_points (length [a; b; c]) [a; b; c])
      with (p ← vstack (meshgrid_data [a; b; c]); Return (Some p)).
    rewrite (vstack_same_length _ _ (meshgrid_data_cons_ne _ _) Hall). reflexivity.
  - change (mesh_points (length [a; b; c; d]) [a; b; c; d])
      with (p ← vstack (meshgrid_data [a; b; c; d]); Return (Some p)).
    rewrite (vstack_same_length _ _ (meshgrid_data_cons_ne _ _) Hall). reflexivity.
Qed.

Lemma mesh_points_returns (ladders : list (list npfloat)) :
  ∃ p, mesh_points (length ladders) ladders = Return p.
Proof.
  destruct (decide (2 ≤ length ladders ≤ 4)) as [H|H].
  - eexists. by apply mesh_points_stack.
  - destruct ladders as [|a [|b [|c [|d [|e ?]]]]]; simpl in H; try lia;
      by eexists.
Qed.

Lemma layer1_bounds_axes (dt : int_dtype) (r : Qc) (axes : list axis) :
  layer1_bounds (cpe_of dt axes) (center_of axes) (Fin r) (domain_of axes) =
  if bool_decide (1 < r)%Qc then Return None
  else if np_all ((λ a, bool_decide (rect_low r a ≤ low a)%Qc) <$> axes)
  then Return None
  else if np_all ((λ a, bool_decide (high a ≤ rect_high r a)%Qc) <$> axes)
  then Return None
  else Return (Some (anchor_left dt r <$> axes, anchor_right dt r <$> axes)).
Proof.
  unfold layer1_bounds, cpe_of, center_of, domain_of.
  change (fgt (Fin r) one) with (bool_decide (1 < r)%Qc).
  destruct (bool_decide (1 < r)%Qc); [done|].
  cbn [times2].
  rewrite <-!list_fmap_compose, zip_with_fmap_same, <-!list_fmap_compose.
  rewrite !broadcast_fmap.
  cbn [mbind result_bind].
  rewrite !assign_column_fmap. cbn [mbind result_bind].
  rewrite !zip_with_fmap_same, !broadcast_fmap.
  reflexivity.
Qed.

(** ** Ladders *)

Lemma length_linspace (a b : npfloat) n : length (linspace a b n) = n.
Proof.
  destruct n as [|[|n]]; [done..|].
  unfold linspace. rewrite length_app, length_fmap, length_seq. simpl. lia.
Qed.

Lemma linspace_fin (a b : Qc) n :
  linspace (Fin a) (Fin b) (S (S n)) =
  ((λ i, Fin (Qn i * ((b - a) / Qn (S n)) + a)%Qc) <$> seq 0 (S n)) ++ [Fin b].
Proof.
  reflexivity.
Qed.

Lemma interior_cons_snoc {A} (x y : A) l : interior (x :: l ++ [y]) = l.
Proof. unfold interior. simpl. apply removelast_last. Qed.

Lemma ladder_step (c w x j : Qc) :
  x ≠ 0%Qc → (x + 1)%Qc ≠ 0%Qc →
  ((j + 1) * ((c + 1 / 2 * w + w / (2 * x) - (c - 1 / 2 * w - w / (2 * x))) / (x + 1))
   + (c - 1 / 2 * w - w / (2 * x)))%Qc
  = (j * (w / x) + (c - 1 / 2 * w + w / (2 * x)))%Qc.
Proof. intros Hx Hx1. field. done. Qed.

Lemma layer1_ladder_entries (r : Qc) (a : axis) :
  0 < cells a →
  interior (layer1_ladder r a) =
  (λ j, Fin (Qn j * (rect_width r a / Qn (cells a))
             + (rect_low r a + margin r a))%Qc) <$> seq 0 (cells a).
Proof.
  intros Hn. unfold layer1_ladder.
  replace (cells a + 2) with (S (S (cells a))) by lia.
  rewrite linspace_fin. cbn [seq fmap list_fmap]. rewrite <-app_comm_cons.
  rewrite interior_cons_snoc, <-fmap_S_seq, <-list_fmap_compose.
  apply list_fmap_ext. intros _ j _. cbn [compose]. f_equal.
  unfold margin, rect_high, rect_low. rewrite Qn_double, !Qn_S.
  pose proof (Qn_nonzero _ Hn) as Hx.
  assert ((Qn (cells a) + 1)%Qc ≠ 0%Qc) as Hx1.
  { rewrite <-Qn_S. apply Qn_nonzero. lia. }
  apply ladder_step; done.
Qed.

Lemma linspace_progression (s step : Qc) n :
  linspace (Fin s) (Fin (s + Qn (n - 1) * step)%Qc) n =
  (λ j, Fin (Qn j * step + s)%Qc) <$> seq 0 n.
Proof.
  destruct n as [|[|k]]; [done| |].
  - cbn. rewrite Qn_0. do 2 f_equal. ring.
  - rewrite linspace_fin, (seq_S (S k)), fmap_app.
    replace (S (S k) - 1) with (S k) by lia. f_equal.
    + apply list_fmap_ext. intros _ j _. do 2 f_equal.
      field. apply Qn_nonzero. lia.
    + cbn. do 2 f_equal. ring.
Qed.

Lemma layer1_ladder_interior (r : Qc) (a : axis) :
  0 < cells a →
  interior (layer1_ladder r a) =
  linspace (Fin (rect_low r a + margin r a)%Qc)
           (Fin (rect_high r a - margin r a)%Qc) (cells a).
Proof.
  intros Hn. rewrite layer1_ladder_entries by done.
  rewrite <-linspace_progression. do 2 f_equal.
  unfold margin, rect_high, rect_low. rewrite Qn_double.
  destruct (cells a) as [|k]; [lia|].
  replace (S k - 1) with k by lia. rewrite Qn_S.
  assert ((Qn k + 1)%Qc ≠ 0%Qc) as Hx1.
  { rewrite <-Qn_S. apply Qn_nonzero. lia. }
  field. done.
Qed.

(** Within the range of the type nothing wraps. *)
Lemma wrap_to_within (dt : int_dtype) (z : Z) :
  (0 ≤ z ≤ dtype_max dt)%Z → wrap_to dt z = z.
Proof.
  intros Hz. unfold wrap_to.
  assert (0 ≤ z - dtype_min dt < 2 ^ bits dt)%Z as Hlt
    by (destruct dt; cbn in *; lia).
  rewrite Z.mod_small by exact Hlt. lia.
Qed.

Lemma margin_of_within (dt : int_dtype) (r : Qc) (a : axis) :
  0 < cells a → doubles_within dt a → margin_of dt r a = Fin (margin r a).
Proof.
  intros Hn Hdt. unfold margin_of, margin, doubles_within in *.
  rewrite wrap_to_within by lia.
  unfold float_of_int.
  replace (2 * Z.of_nat (cells a))%Z with (Z.of_nat (2 * cells a)) by lia.
  fold (Qn (2 * cells a)). rewrite fdiv_fin; [done|]. apply Qn_nonzero. lia.
Qed.

Lemma ladder_of_within (dt : int_dtype) (r : Qc) (a : axis) :
  0 < cells a → doubles_within dt a → ladder_of dt r a = layer1_ladder r a.
Proof.
  intros Hn Hdt. unfold ladder_of, anchor_left, anchor_right, layer1_ladder.
  by rewrite margin_of_within.
Qed.

(** The anchors of the first layer for finite input whose hyperrectangle
    passes both containment tests. *)
Lemma layer1_bounds_passed (dt : int_dtype) (r : Qc) (axes : list axis) :
  (r ≤ 1)%Qc →
  Exists (λ a, low a < rect_low r a)%Qc axes →
  Exists (λ a, rect_high r a < high a)%Qc axes →
  layer1_bounds (cpe_of dt axes) (center_of axes) (Fin r) (domain_of axes) =
  Return (Some (anchor_left dt r <$> axes, anchor_right dt r <$> axes)).
Proof.
  intros Hr Hlo Hhi. rewrite layer1_bounds_axes.
  rewrite bool_decide_eq_false_2 by by apply Qcle_not_lt.
  rewrite np_all_fmap_exists.
  2:{ eapply Exists_impl; [exact Hlo|]. intros a Ha.
      by apply bool_decide_eq_false_2, Qclt_not_le. }
  rewrite np_all_fmap_exists; [done|].
  eapply Exists_impl; [exact Hhi|]. intros a Ha.
  by apply bool_decide_eq_false_2, Qclt_not_le.
Qed.

Lemma inside_exists (r : Qc) (axes : list axis) :
  axes ≠ [] → Forall (λ a, 0 < cells a ∧ strictly_inside r a) axes →
  Exists (λ a, low a < rect_low r a)%Qc axes
  ∧ Exists (λ a, rect_high r a < high a)%Qc axes.
Proof.
  intros Hne Hall. destruct Hall as [|a axes (_ & Hlo & Hhi) _]; [done|].
  split; by left.
Qed.

(** The loop of lines 57-62 over anchors that are all present. *)
Lemma layer1_loop {A} (f g : A → npfloat) (n : A → nat) (l : list A) m :
  m = length l →
  for_each (λ dim,
      a ← index (f <$> l) dim; b ← index (g <$> l) dim;
      k ← index (n <$> l) dim; Return (linspace a b (k + 2)))
    (seq 0 m)
  = Return ((λ x, linspace (f x) (g x) (n x + 2)) <$> l).
Proof.
  intros ->. apply for_each_seq. intros i x Hi. cbn [Nat.add].
  by rewrite !(index_fmap _ _ _ _ Hi).
Qed.

(** The call on finite, well-shaped input whose hyperrectangle passes both
    containment tests: the ladders are those of [ladder_of] and the points
    are their mesh. *)
Lemma layer1_call_passed (dt : int_dtype) (r : Qc) (axes : list axis) :
  (r ≤ 1)%Qc →
  Exists (λ a, low a < rect_low r a)%Qc axes →
  Exists (λ a, rect_high r a < high a)%Qc axes →
  center_and_layer1_points (cpe_of dt axes) (center_of axes) (Fin r)
    (domain_of axes)
  = match mesh_points (length (ladder_of dt r <$> axes))
            (ladder_of dt r <$> axes) with
    | Return points => Return (Some (points, ladder_of dt r <$> axes))
    | Raise e => Raise e
    end.
Proof.
  intros Hr Hlo Hhi. unfold center_and_layer1_points.
  rewrite layer1_bounds_passed by done.
  cbn [mbind result_bind]. unfold cpe_of, items.
  rewrite layer1_loop by (unfold domain_of; by rewrite length_fmap).
  cbn [mbind result_bind]. fold (ladder_of dt r).
  replace (length (domain_of axes))
    with (length (ladder_of dt r <$> axes))
    by (unfold domain_of; by rewrite !length_fmap).
  by destruct (mesh_points _ _).
Qed.

Lemma ladders_within (dt : int_dtype) (r : Qc) (axes : list axis) :
  Forall (λ a, 0 < cells a) axes → Forall (doubles_within dt) axes →
  ladder_of dt r <$> axes = layer1_ladder r <$> axes.
Proof.
  intros Hn Hdt. rewrite Forall_forall in Hn, Hdt.
  apply list_fmap_ext. intros i a Ha%list_elem_of_lookup_2.
  apply ladder_of_within; [by apply Hn|by apply Hdt].
Qed.

(** The call on finite, well-shaped input whose hyperrectangle is strictly
    inside the domain, with counts whose doubles do not wrap around: the
    ladders are those of [layer1_ladder] and the points are their mesh. *)
Lemma layer1_call (dt : int_dtype) (r : Qc) (axes : list axis) :
  (r ≤ 1)%Qc → axes ≠ [] →
  Forall (λ a, 0 < cells a ∧ strictly_inside r a) axes →
  Forall (doubles_within dt) axes →
  center_and_layer1_points (cpe_of dt axes) (center_of axes) (Fin r)
    (domain_of axes)
  = match mesh_points (length (layer1_ladder r <$> axes))
            (layer1_ladder r <$> axes) with
    | Return points => Return (Some (points, layer1_ladder r <$> axes))
    | Raise e => Raise e
    end.
Proof.
  intros Hr Hne Hall Hdt.
  destruct (inside_exists r axes Hne Hall) as [Hlo Hhi].
  rewrite layer1_call_passed by done.
  rewrite ladders_within; [done| |done].
  eapply Forall_impl; [exact Hall|]. by intros a [Hn _].
Qed.

(** C1, amended.  For every finite, well-shaped input with ratio in (0,1),
    positive [cellsPerEdge], an integer array whose type holds twice each
    count (so that [2*cellsPerEdge] does not wrap around), and the
    hyperrectangle strictly inside the domain, [center_and_layer1_points]
    returns, per dimension, the ladder
    [linspace(rect_low - margin, rect_high + margin, cellsPerEdge + 2)] with
    [margin = rect_width / (2 * cellsPerEdge)]; it has [cellsPerEdge + 2]
    entries, and its interior sub-range (elements 1..-2) is
    [linspace(rect_low + margin, rect_high - margin, cellsPerEdge)]: the
    centres of the cells, half a cell inside the bounds of the
    hyperrectangle.  The floats are exact rationals here. *)
Theorem layer1_ladders (dt : int_dtype) (r : Qc) (axes : list axis) :
  (0 < r < 1)%Qc → axes ≠ [] →
  Forall (λ a, 0 < cells a ∧ strictly_inside r a) axes →
  Forall (doubles_within dt) axes →
  (∃ points,
     center_and_layer1_points (cpe_of dt axes) (center_of axes) (Fin r)
       (domain_of axes)
     = Return (Some (points, layer1_ladder r <$> axes)))
  ∧ Forall (λ a,
      length (layer1_ladder r a) = cells a + 2
      ∧ interior (layer1_ladder r a) =
        linspace (Fin (rect_low r a + margin r a)%Qc)
                 (Fin (rect_high r a - margin r a)%Qc) (cells a)) axes.
Proof.
  intros [_ Hr] Hne Hall Hdt. split.
  - rewrite layer1_call by auto using Qclt_le_weak.
    destruct (mesh_points_returns (layer1_ladder r <$> axes)) as [p ->].
    by exists p.
  - eapply Forall_impl; [exact Hall|]. intros a [Hn _]. split.
    + apply length_linspace.
    + by apply layer1_ladder_interior.
Qed.

(** C1, amended, on the domain [[0,1],[0,1]] with center [0.5,0.5],
    ratio 0.5 and two cells per edge, the counts of type [int64]. *)
Lemma layer1_ladders_witness :
  ((0 < Q2Qc (1 # 2) < 1)%Qc ∧ unit_square ≠ []
   ∧ Forall (λ a, 0 < cells a ∧ strictly_inside (Q2Qc (1 # 2)) a) unit_square
   ∧ Forall (doubles_within int64) unit_square)
  ∧ ((∃ points,
        center_and_layer1_points (cpe_of int64 unit_square) (center_of unit_square)
          (Fin (Q2Qc (1 # 2))) (domain_of unit_square)
        = Return (Some (points, layer1_ladder (Q2Qc (1 # 2)) <$> unit_square)))
     ∧ Forall (λ a,
         length (layer1_ladder (Q2Qc (1 # 2)) a) = cells a + 2
         ∧ interior (layer1_ladder (Q2Qc (1 # 2)) a) =
           linspace (Fin (rect_low (Q2Qc (1 # 2)) a + margin (Q2Qc (1 # 2)) a)%Qc)
                    (Fin (rect_high (Q2Qc (1 # 2)) a - margin (Q2Qc (1 # 2)) a)%Qc)
                    (cells a)) unit_square).
Proof.
  assert ((0 < Q2Qc (1 # 2) < 1)%Qc) as H1 by (split; reflexivity).
  assert (unit_square ≠ []) as H2 by discriminate.
  assert (Forall (λ a, 0 < cells a ∧ strictly_inside (Q2Qc (1 # 2)) a)
            unit_square) as H3.
  { repeat constructor; cbn; lia. }
  assert (Forall (doubles_within int64) unit_square) as H4.
  { repeat constructor; by vm_compute. }
  split; [exact (conj H1 (conj H2 (conj H3 H4)))|].
  exact (layer1_ladders int64 (Q2Qc (1 # 2)) unit_square H1 H2 H3 H4).
Defined.

(** C1, as stated, on the same input: each ladder is
    [0.125, 0.375, 0.625, 0.875]; its interior [0.375, 0.625] is not a
    [linspace] over the bounds [0.25] and [0.75] of the hyperrectangle,
    whatever the number of samples. *)
Lemma layer1_interior_not_linspace_over_bounds :
  center_and_layer1_points (IntArray int64 [2; 2]) [q 1 2; q 1 2] (q 1 2)
    [(q 0 1, q 1 1); (q 0 1, q 1 1)]
  = Return (Some (Some (NdArray [2; 16] (mjoin (meshgrid_data [unit_ladder; unit_ladder]))),
                  [unit_ladder; unit_ladder]))
  ∧ interior unit_ladder = [q 3 8; q 5 8]
  ∧ ∀ num, interior unit_ladder ≠ linspace (q 1 4) (q 3 4) num.
Proof.
  split; [compute_done|]. split; [done|].
  intros num Heq.
  assert (num = 2) as ->.
  { by rewrite <-(length_linspace (q 1 4) (q 3 4) num), <-Heq. }
  revert Heq. compute_done.
Qed.

(** Without the bound on the counts the doubled count wraps around: for
    64 cells held as [int8], [2*center_pts_per_edge] is -128, the margin
    is negative and the ladder on [[0,1]] with ratio 0.5 runs from 65/256
    to 191/256, inside the hyperrectangle [[0.25, 0.75]]. *)
Example doubled_count_wraps :
  times2 (IntArray int8 [64]) = [(-128)%Z]
  ∧ ∃ ladder,
      center_and_layer1_points (IntArray int8 [64]) [q 1 2] (q 1 2)
        [(q 0 1, q 1 1)]
      = Return (Some (Some (array1 ladder), [ladder]))
      ∧ length ladder = 66
      ∧ head ladder = Some (q 65 256)
      ∧ last ladder = Some (q 191 256).
Proof.
  split; [reflexivity|].
  exists (ladder_of int8 (Q2Qc (1 # 2)) (Axis 64 (Q2Qc (1 # 2)) 0%Qc 1%Qc)).
  repeat split; compute_done.
Qed.

(** ** Ratio one *)

(** A loop that appends the same array to two lists. *)
Lemma for_each_twice {A B} (F : A → result B) (G : A → result (B * B)) l :
  (∀ x, G x = y ← F x; (Return (y, y) : result (B * B))) →
  for_each G l =
  ys ← for_each F l; (Return ((λ y, (y, y)) <$> ys) : result (list (B * B))).
Proof.
  intros HG. induction l as [|x l IH]; [done|].
  cbn [for_each]. rewrite HG, IH.
  destruct (F x) as [y|e]; [|done]. cbn [mbind result_bind].
  by destruct (for_each F l).
Qed.

Lemma fst_twice {B} (ys : list B) : ((λ y, (y, y)) <$> ys).*1 = ys.
Proof. rewrite <-list_fmap_compose. apply list_fmap_id. Qed.

Lemma snd_twice {B} (ys : list B) : ((λ y, (y, y)) <$> ys).*2 = ys.
Proof. rewrite <-list_fmap_compose. apply list_fmap_id. Qed.

(** With ratio 1 [center_and_layer2_points] does what
    [center_and_layer1_points] does on the same arguments: the same
    exception, the same [None], or the same point set, with the ladders of
    the first layer returned a second time in place of a double layer. *)
Lemma layer2_ratio_one (center_pts_per_edge : int_seq) (center : list npfloat)
    (sur_domain : list (npfloat * npfloat)) :
  center_and_layer2_points center_pts_per_edge center one sur_domain =
  match center_and_layer1_points center_pts_per_edge center one sur_domain with
  | Return (Some (points, interior_and_layer1)) =>
      Return (Some (points, interior_and_layer1, interior_and_layer1))
  | Return None => Return None
  | Raise e => Raise e
  end.
Proof.
  unfold center_and_layer2_points, center_and_layer1_points.
  destruct (layer1_bounds _ _ _ _) as [[[layer1_left layer1_right]|]|e];
    [|done..].
  cbn [mbind result_bind]. change (flt one one) with false. cbn iota.
  rewrite (for_each_twice (λ dim,
    a ← index layer1_left dim; b ← index layer1_right dim;
    n ← index (items center_pts_per_edge) dim;
    Return (linspace a b (n + 2)))); last first.
  { intros dim. destruct (index layer1_left dim); [|done].
    destruct (index layer1_right dim); [|done].
    by destruct (index (items center_pts_per_edge) dim). }
  destruct (for_each _ _) as [ladders|e]; [|done].
  cbn [mbind result_bind]. rewrite fst_twice, snd_twice.
  by destruct (mesh_points _ _).
Qed.

(** With ratio 1 and a center off the middle, to the right in one
    dimension and to the left in the other, both containment tests fail
    and a point set is returned. *)
Example layer2_ratio_one_point_set :
  center_and_layer2_points (IntArray int64 [1; 1]) [q 3 5; q 2 5] one
    [(q 0 1, q 1 1); (q 0 1, q 1 1)]
  = Return (Some (Some (NdArray [2; 9]
                    (mjoin (meshgrid_data [[q (-2) 5; q 3 5; q 8 5];
                                           [q (-3) 5; q 2 5; q 7 5]]))),
                  [[q (-2) 5; q 3 5; q 8 5]; [q (-3) 5; q 2 5; q 7 5]],
                  [[q (-2) 5; q 3 5; q 8 5]; [q (-3) 5; q 2 5; q 7 5]])).
Proof. compute_done. Qed.

(** C3.  With ratio 1 and the center in the middle of the domain
    [[0,1],[0,1]], the one placement for which the hyperrectangle is the
    domain, the containment test of line 131 (line 44) holds with
    equality: [center_and_layer2_points] returns [None], as
    [center_and_layer1_points] does, and no point set tiles the domain,
    where the docstring offers [r_ratio = 1] for that use. *)
Theorem layer2_ratio_one_centred :
  center_and_layer2_points (IntArray int64 [2; 2]) [q 1 2; q 1 2] one
    [(q 0 1, q 1 1); (q 0 1, q 1 1)] = Return None
  ∧ center_and_layer1_points (IntArray int64 [2; 2]) [q 1 2; q 1 2] one
      [(q 0 1, q 1 1); (q 0 1, q 1 1)] = Return None
  ∧ rect_low 1 <$> unit_square = low <$> unit_square
  ∧ rect_high 1 <$> unit_square = high <$> unit_square.
Proof. repeat split; compute_done. Qed.

(** ** Rejected input *)

(** The ratio test comes first, whatever the other arguments are. *)
Lemma ratio_above_one (center_pts_per_edge : int_seq) (center : list npfloat)
    (r_ratio : npfloat) (sur_domain : list (npfloat * npfloat)) :
  fgt r_ratio one = true →
  center_and_layer1_points center_pts_per_edge center r_ratio sur_domain
    = Return None
  ∧ center_and_layer2_points center_pts_per_edge center r_ratio sur_domain
    = Return None.
Proof.
  intros Hr. unfold center_and_layer1_points, center_and_layer2_points,
    layer1_bounds. by rewrite Hr.
Qed.

(** C4, amended.  When the ratio exceeds 1, or when in every dimension
    the lower face of the hyperrectangle is not strictly inside the domain,
    or in every dimension the upper face is not, both grid generators
    return [None]: no point set, and no [DomainError]. *)
Theorem rejected_input_returns_none (dt : int_dtype) (r : Qc) (axes : list axis) :
  (1 < r)%Qc
  ∨ Forall (λ a, rect_low r a ≤ low a)%Qc axes
  ∨ Forall (λ a, high a ≤ rect_high r a)%Qc axes →
  center_and_layer1_points (cpe_of dt axes) (center_of axes) (Fin r)
    (domain_of axes) = Return None
  ∧ center_and_layer2_points (cpe_of dt axes) (center_of axes) (Fin r)
    (domain_of axes) = Return None.
Proof.
  intros Hrej.
  assert (layer1_bounds (cpe_of dt axes) (center_of axes) (Fin r) (domain_of axes)
          = Return None) as Hb.
  { rewrite layer1_bounds_axes. case_bool_decide as Hr; [done|].
    destruct Hrej as [?|[Hlo|Hhi]]; [done| |].
    - rewrite np_all_fmap_true; [done|].
      eapply Forall_impl; [exact Hlo|]. intros a Ha.
      by apply bool_decide_eq_true_2.
    - destruct (np_all _); [done|].
      rewrite np_all_fmap_true; [done|].
      eapply Forall_impl; [exact Hhi|]. intros a Ha.
      by apply bool_decide_eq_true_2. }
  unfold center_and_layer1_points, center_and_layer2_points.
  by rewrite Hb.
Qed.

(** C4, amended, on the domain [[0,1]] with ratio 1.5. *)
Lemma rejected_input_returns_none_witness :
  ((1 < Q2Qc (3 # 2))%Qc
   ∨ Forall (λ a, rect_low (Q2Qc (3 # 2)) a ≤ low a)%Qc unit_interval
   ∨ Forall (λ a, high a ≤ rect_high (Q2Qc (3 # 2)) a)%Qc unit_interval)
  ∧ center_and_layer1_points (cpe_of int64 unit_interval) (center_of unit_interval)
      (Fin (Q2Qc (3 # 2))) (domain_of unit_interval) = Return None
  ∧ center_and_layer2_points (cpe_of int64 unit_interval) (center_of unit_interval)
      (Fin (Q2Qc (3 # 2))) (domain_of unit_interval) = Return None.
Proof.
  assert ((1 < Q2Qc (3 # 2))%Qc
   ∨ Forall (λ a, rect_low (Q2Qc (3 # 2)) a ≤ low a)%Qc unit_interval
   ∨ Forall (λ a, high a ≤ rect_high (Q2Qc (3 # 2)) a)%Qc unit_interval) as H.
  { left. reflexivity. }
  split; [exact H|].
  exact (rejected_input_returns_none int64 (Q2Qc (3 # 2)) unit_interval H).
Defined.

(** C4, as stated: with ratio 1.5 the call returns [None]; it does not
    fail with a [DomainError]. *)
Lemma ratio_above_one_is_no_domain_error :
  center_and_layer1_points (IntArray int64 [2]) [q 1 2] (q 3 2) [(q 0 1, q 1 1)]
    = Return None
  ∧ center_and_layer1_points (IntArray int64 [2]) [q 1 2] (q 3 2) [(q 0 1, q 1 1)]
    ≠ Raise DomainError
  ∧ center_and_layer2_points (IntArray int64 [2]) [q 1 2] (q 3 2) [(q 0 1, q 1 1)]
    = Return None
  ∧ center_and_layer2_points (IntArray int64 [2]) [q 1 2] (q 3 2) [(q 0 1, q 1 1)]
    ≠ Raise DomainError.
Proof. compute_done. Qed.

(** The containment tests of lines 44 and 48 use [np.all]: a
    hyperrectangle that leaves the domain in one dimension only passes
    both. *)
Example partial_violation_passes :
  center_and_layer1_points (IntArray int64 [2; 2]) [q 1 10; q 1 2] (q 1 2)
    [(q 0 1, q 1 1); (q 0 1, q 1 1)]
  = Return (Some (Some (NdArray [2; 16]
                    (mjoin (meshgrid_data [[q (-11) 40; q (-1) 40; q 9 40; q 19 40];
                                           unit_ladder]))),
                  [[q (-11) 40; q (-1) 40; q 9 40; q 19 40]; unit_ladder])).
Proof. compute_done. Qed.

(** ** The second layer *)

(** The arithmetic of line 151: the edge between an anchor of the first
    layer and its mirror image [layer1 + 2*(boundary - layer1)] is the
    boundary of the domain. *)
Lemma mirrored_anchor_edge (layer1 boundary : Qc) :
  edges_from_points
    [[fadd (Fin layer1) (fmul two (fsub (Fin boundary) (Fin layer1)));
      Fin layer1]]
  = [[Fin boundary]].
Proof.
  unfold edges_from_points, midpoints. cbn. do 3 f_equal. field. done.
Qed.

(** C2.  On every finite, well-shaped input with ratio in (0,1), positive
    cell counts and the hyperrectangle strictly inside the domain,
    [center_and_layer2_points] stops at line 152, which reads
    [layer2_right] before it is assigned: no second layer is placed. *)
Theorem layer2_right_anchor_unbound (dt : int_dtype) (r : Qc) (axes : list axis) :
  (0 < r < 1)%Qc → axes ≠ [] →
  Forall (λ a, 0 < cells a ∧ strictly_inside r a) axes →
  center_and_layer2_points (cpe_of dt axes) (center_of axes) (Fin r)
    (domain_of axes) = Raise UnboundLocalError.
Proof.
  intros [_ Hr] Hne Hall. unfold center_and_layer2_points.
  destruct (inside_exists r axes Hne Hall) as [Hlo Hhi].
  rewrite layer1_bounds_passed by auto using Qclt_le_weak.
  cbn [mbind result_bind].
  change (flt (Fin r) one) with (bool_decide (r < 1)%Qc).
  rewrite bool_decide_eq_true_2 by done.
  unfold domain_of. rewrite <-!list_fmap_compose, !broadcast_fmap.
  cbn [mbind result_bind]. rewrite <-!list_fmap_compose, !broadcast_fmap.
  reflexivity.
Qed.

(** C2 on the domain [[0,1],[0,1]] with center [0.5,0.5], ratio 0.5 and
    two cells per edge. *)
Lemma layer2_right_anchor_unbound_witness :
  ((0 < Q2Qc (1 # 2) < 1)%Qc ∧ unit_square ≠ []
   ∧ Forall (λ a, 0 < cells a ∧ strictly_inside (Q2Qc (1 # 2)) a) unit_square)
  ∧ center_and_layer2_points (cpe_of int64 unit_square) (center_of unit_square)
      (Fin (Q2Qc (1 # 2))) (domain_of unit_square) = Raise UnboundLocalError.
Proof.
  assert ((0 < Q2Qc (1 # 2) < 1)%Qc) as H1 by (split; reflexivity).
  assert (unit_square ≠ []) as H2 by discriminate.
  assert (Forall (λ a, 0 < cells a ∧ strictly_inside (Q2Qc (1 # 2)) a)
            unit_square) as H3.
  { repeat constructor; cbn; lia. }
  split; [by repeat split|].
  exact (layer2_right_anchor_unbound int64 (Q2Qc (1 # 2)) unit_square H1 H2 H3).
Defined.

(** ** Volumes *)

Lemma bin_of_lt (e : list npfloat) (x : npfloat) i :
  bin_of e x = Some i → i < nbins e.
Proof.
  unfold bin_of. repeat case_decide; try done.
  - intros [= <-]. lia.
  - destruct (_ && _) eqn:Hlast; [|done]. intros [= <-].
    apply andb_true_iff in Hlast as [_ Hpos%bool_decide_eq_true]. lia.
Qed.

Lemma flat_bin_lt (bins : list (list npfloat)) (p : list npfloat) j :
  flat_bin bins p = Some j → j < product (nbins <$> bins).
Proof.
  revert p j. induction bins as [|e bins IH]; intros [|x p] j; cbn; try done.
  - intros [= <-]. lia.
  - destruct (bin_of e x) as [i|] eqn:Hi; [|done]. cbn.
    destruct (flat_bin bins p) as [k|] eqn:Hk; [|done]. cbn.
    intros [= <-]. apply bin_of_lt in Hi. apply IH in Hk.
    change (foldr Nat.mul 1 (nbins <$> bins)) with (product (nbins <$> bins)).
    nia.
Qed.

Lemma histogramdd_volumes_accepted (edges points : list (list npfloat)) :
  histogramdd_accepts points edges = true →
  histogramdd_volumes edges points =
  Return ((λ j, fdiv one (fmul (float_of_nat (cell_count edges points j))
                               (float_of_nat (length points))))
            <$> seq 0 (product (nbins <$> edges))).
Proof.
  intros Hacc. unfold histogramdd_volumes, histogramdd. rewrite Hacc.
  cbn [mbind result_bind ravel shape data]. by rewrite <-list_fmap_compose.
Qed.


(** C10, amended.  Whenever numpy accepts the sample and the edges and a
    cell holds no point, [histogramdd_volumes] returns, and the volume at
    the position of that cell is [inf], the quotient [1/(0*N)] of numpy:
    there is neither an error nor a volume 0. *)
Theorem empty_cell_volume_is_inf (edges points : list (list npfloat)) (j : nat) :
  histogramdd_accepts points edges = true →
  j < product (nbins <$> edges) →
  cell_count edges points j = 0 →
  ∃ volume, histogramdd_volumes edges points = Return volume
            ∧ volume !! j = Some PInf.
Proof.
  intros Hacc Hj Hzero. eexists. split; [by apply histogramdd_volumes_accepted|].
  rewrite list_lookup_fmap, lookup_seq_lt by done. cbn. rewrite Hzero.
  unfold float_of_nat. cbn. rewrite Qn_0, Qcmult_0_l. done.
Qed.



(** C10, amended, on two cells whose two points both lie in the first. *)
Lemma empty_cell_volume_is_inf_witness :
  (histogramdd_accepts crowded_points line_edges = true
   ∧ 1 < product (nbins <$> line_edges)
   ∧ cell_count line_edges crowded_points 1 = 0)
  ∧ ∃ volume, histogramdd_volumes line_edges crowded_points = Return volume
              ∧ volume !! 1 = Some PInf.
Proof.
  assert (histogramdd_accepts crowded_points line_edges = true) as H1
    by reflexivity.
  assert (1 < product (nbins <$> line_edges)) as H2 by (vm_compute; lia).
  assert (cell_count line_edges crowded_points 1 = 0) as H3 by reflexivity.
  split; [by repeat split|].
  exact (empty_cell_volume_is_inf line_edges crowded_points 1 H1 H2 H3).
Defined.

(** C10, as stated: the second cell holds no point; the call returns, and
    the volume of that cell is [inf], not 0. *)
Lemma empty_cell_is_divided_by_zero :
  cell_count line_edges crowded_points 1 = 0
  ∧ histogramdd_volumes line_edges crowded_points = Return [q 1 4; PInf]
  ∧ histogramdd_volumes line_edges crowded_points ≠ Raise DegenerateCellError
  ∧ [q 1 4; PInf] !! 1 ≠ Some (Fin 0%Qc).
Proof. compute_done. Qed.

(** ** Names that are not bound *)

(** C9.  [points_from_edges] computes the midpoints and then reads the
    unbound name [dimensions]: every call ends in a [NameError], and no
    points are returned. *)
Theorem points_from_edges_raises (edges : list (list npfloat)) :
  points_from_edges edges = Raise NameError.
Proof. reflexivity. Qed.

(** [edges_from_points(points_from_edges(e))] *)
Example edges_round_trip_raises :
  match points_from_edges [[q 0 1; q 1 1; q 2 1; q 3 1]] with
  | Return (Some points) => Return (edges_from_points points)
  | Return None => Raise TypeError
  | Raise e => Raise e
  end = Raise NameError.
Proof. reflexivity. Qed.

(** The midpoints of an arithmetic progression. *)
Lemma midpoints_progression (s step : Qc) n :
  midpoints ((λ j, Fin (Qn j * step + s)%Qc) <$> seq 0 (S n))
  = (λ j, Fin (Qn j * step + (s + step / 2))%Qc) <$> seq 0 n.
Proof.
  unfold midpoints.
  assert (removelast ((λ j, Fin (Qn j * step + s)%Qc) <$> seq 0 (S n))
          = (λ j, Fin (Qn j * step + s)%Qc) <$> seq 0 n) as ->.
  { rewrite seq_S, fmap_app. apply removelast_last. }
  cbn [seq fmap list_fmap tail].
  rewrite <-fmap_S_seq, <-list_fmap_compose, zip_with_fmap_same.
  rewrite <-list_fmap_compose. apply list_fmap_ext. intros _ j _.
  cbn [compose fadd]. unfold two. rewrite fdiv_fin by done. f_equal.
  rewrite Qn_S. field. done.
Qed.

(** What [points_from_edges] computes before it stops, put through
    [edges_from_points]: for a uniform ladder of edges the interior edges
    come back, and the two outer edges are lost. *)
Lemma centers_round_trip (s step : Qc) n :
  let e := (λ j, Fin (Qn j * step + s)%Qc) <$> seq 0 (S (S n)) in
  edges_from_points (midpoints <$> [e]) = [interior e].
Proof.
  cbn zeta. unfold edges_from_points. cbn [fmap list_fmap]. f_equal.
  rewrite !midpoints_progression.
  rewrite (seq_S (S n)), fmap_app. cbn [seq fmap list_fmap].
  rewrite <-app_comm_cons, interior_cons_snoc.
  rewrite <-fmap_S_seq, <-list_fmap_compose.
  apply list_fmap_ext. intros _ j _. cbn [compose]. f_equal.
  rewrite Qn_S. field. done.
Qed.

(** ** The density assembler *)

Lemma raises_within_bind {A B} es (m : result A) (f : A → result B) :
  raises_within es m → (∀ x, raises_within es (f x)) →
  raises_within es (m ≫= f).
Proof. destruct m; cbn; auto. Qed.


Lemma index_raises {A} (l : list A) i : raises_within array_errors (index l i).
Proof. unfold index. raises_cases. Qed.

Lemma get_column_raises {A} (a : ndarray A) k :
  raises_within array_errors (get_column a k).
Proof. unfold get_column. raises_cases. Qed.

Lemma first_rows_raises {A} (a : ndarray A) k :
  raises_within array_errors (first_rows a k).
Proof. unfold first_rows. raises_cases. Qed.

Lemma repeat_axis0_raises {A} (a : ndarray A) n :
  raises_within array_errors (repeat_axis0 a n).
Proof. unfold repeat_axis0. raises_cases. Qed.

Lemma ufunc2_raises {A B C} (f : A → B → C) a b :
  raises_within array_errors (ufunc2 f a b).
Proof. unfold ufunc2. raises_cases. Qed.

Lemma all_axis1_raises (a : ndarray bool) :
  raises_within array_errors (all_axis1 a).
Proof. unfold all_axis1. raises_cases. Qed.

Lemma mask_select_raises {A} (a : list A) mask :
  raises_within array_errors (mask_select a mask).
Proof. unfold mask_select. raises_cases. Qed.

Lemma mask_assign_raises {A} (a : list A) mask vals :
  raises_within array_errors (mask_assign a mask vals).
Proof. unfold mask_assign. raises_cases. Qed.

Lemma inside_mask_raises (points rect_domain : ndarray npfloat) :
  raises_within array_errors (inside_mask points rect_domain).
Proof.
  unfold inside_mask.
  repeat (apply raises_within_bind; [|intros ?]);
    auto using index_raises, get_column_raises, first_rows_raises,
      repeat_axis0_raises, ufunc2_raises, all_axis1_raises.
Qed.

Lemma density_of_mask_raises (volumes : list npfloat) inside :
  raises_within array_errors (density_of_mask volumes inside).
Proof.
  unfold density_of_mask.
  repeat (apply raises_within_bind; [|intros ?]);
    auto using mask_select_raises, mask_assign_raises.
Qed.

(** [spatial] is not bound in the module, so the call ends in an exception
    whatever the arrays are. *)
Lemma simple_fun_approximation_uniform_raises
    (points : ndarray npfloat) (volumes : list npfloat)
    (rect_domain : ndarray npfloat) :
  ∃ e, simple_fun_approximation_uniform points volumes rect_domain = Raise e
       ∧ e ∈ [ValueError; IndexError; NameError].
Proof.
  unfold simple_fun_approximation_uniform.
  pose proof (inside_mask_raises points rect_domain) as Hm.
  destruct (inside_mask points rect_domain) as [inside|e]; cbn in *.
  - pose proof (density_of_mask_raises volumes inside) as Hd.
    destruct (density_of_mask volumes inside) as [rho|e]; cbn in *.
    + exists NameError. split; [done|]. by do 2 right; left.
    + exists e. split; [done|]. revert Hd. unfold array_errors.
      rewrite !elem_of_cons. tauto.
  - exists e. split; [done|]. revert Hm. unfold array_errors.
    rewrite !elem_of_cons. tauto.
Qed.



(** Writing the scaled selection back through the same mask. *)
Lemma mask_put_selected (S : npfloat) (volumes : list npfloat) (mask : list bool) :
  length mask = length volumes →
  mask_put (zeros (length volumes)) mask
    ((λ v, fdiv v S)
       <$> (filter (λ xm, xm.2 = true) (zip volumes mask)).*1)
  = zip_with (λ v (b : bool), if b then fdiv v S else Fin 0%Qc) volumes mask.
Proof.
  revert mask. induction volumes as [|v volumes IH]; intros [|b mask] Hlen;
    try done.
  injection Hlen as Hlen. specialize (IH mask Hlen).
  change (zip (v :: volumes) (b :: mask)) with ((v, b) :: zip volumes mask).
  destruct b.
  - rewrite filter_cons_True by done. cbn. f_equal. apply IH.
  - rewrite filter_cons_False by (cbn; done). cbn. f_equal. apply IH.
Qed.

(** Lines 363-364 on a mask with one entry per point: the density of a
    point inside is its volume over the sum of the volumes inside, and 0
    for a point outside. *)
Lemma density_of_mask_entries (volumes : list npfloat) (mask : list bool) :
  length mask = length volumes →
  density_of_mask volumes (NdArray [length volumes] mask)
  = Return (zip_with (λ v (b : bool),
              if b then
                fdiv v (np_sum (filter (λ xm, xm.2 = true) (zip volumes mask)).*1)
              else Fin 0%Qc) volumes mask).
Proof.
  intros Hlen. unfold density_of_mask, mask_select, mask_assign.
  cbn [shape data]. rewrite decide_True by done. cbn [mbind result_bind].
  rewrite decide_True by (unfold zeros; by rewrite length_replicate).
  f_equal. by apply mask_put_selected.
Qed.

(** Two of three points inside, each volume one third. *)
Example density_of_two_points_inside :
  density_of_mask third_each (NdArray [3] [true; false; true])
  = Return [q 1 2; q 0 1; q 1 2].
Proof. compute_done. Qed.





(** C7.  Three points inside the unit square: the mask of lines 358-362
    cannot be formed, because [rect_right] is built from the first row of
    [rect_domain] and not from its second column, and the call ends in a
    [ValueError] instead of returning a density. *)
Theorem density_call_fails :
  Forall (λ p, in_region unit_region p = true) inner_rows
  ∧ inside_mask (array2 2 inner_rows) (region_array unit_region)
    = Raise ValueError
  ∧ simple_fun_approximation_uniform (array2 2 inner_rows) third_each
      (region_array unit_region)
    = Raise ValueError.
Proof. compute_done. Qed.

(** A single point in one dimension: the mask of lines 358-362 has two
    entries for the one point. *)
Example inside_mask_of_one_point :
  inside_mask (array2 1 [[q 1 2]]) (region_array [(q 0 1, q 1 1)])
    = Return (NdArray [1; 2] [false; true])
  ∧ simple_fun_approximation_uniform (array2 1 [[q 1 2]]) [q 1 1]
      (region_array [(q 0 1, q 1 1)])
    = Raise IndexError.
Proof. compute_done. Qed.

(** ** The layout of the point set *)

(** C8.  On the domain [[0,1],[0,1]] with center [0.5,0.5], ratio 0.5 and
    two cells per edge the point array has shape (2, 16): one row per
    dimension and one column per point of the Cartesian product, not
    (16, 2). *)
Theorem points_array_is_transposed :
  center_and_layer1_points (IntArray int64 [2; 2]) [q 1 2; q 1 2] (q 1 2)
    [(q 0 1, q 1 1); (q 0 1, q 1 1)]
  = Return (Some (Some (NdArray [2; 16]
                          (mjoin (meshgrid_data [unit_ladder; unit_ladder]))),
                  [unit_ladder; unit_ladder]))
  ∧ length (cartesian [unit_ladder; unit_ladder]) = 16
  ∧ [2; 16] ≠ [length (cartesian [unit_ladder; unit_ladder]); 2].
Proof. compute_done. Qed.

(** One dimension: the point array is the ladder itself, of shape
    (num_points,). *)
Example points_of_one_dimension :
  center_and_layer1_points (IntArray int64 [2]) [q 1 2] (q 1 2) [(q 0 1, q 1 1)]
  = Return (Some (Some (NdArray [4] unit_ladder), [unit_ladder])).
Proof. compute_done. Qed.

(** Five dimensions: [points] is [None], and the ladders are returned. *)
Example points_of_five_dimensions :
  center_and_layer1_points (IntArray int64 [1; 1; 1; 1; 1])
    [q 1 2; q 1 2; q 1 2; q 1 2; q 1 2] (q 1 2)
    [(q 0 1, q 1 1); (q 0 1, q 1 1); (q 0 1, q 1 1); (q 0 1, q 1 1);
     (q 0 1, q 1 1)]
  = Return (Some (None, replicate 5 [q 0 1; q 1 2; q 1 1])).
Proof. compute_done. Qed.

(** A Python list for [center_pts_per_edge]: [2*center_pts_per_edge] has
    twice as many entries as [rect_width]. *)
Example python_list_of_counts :
  center_and_layer1_points (PyList [2; 2]) [q 1 2; q 1 2] (q 1 2)
    [(q 0 1, q 1 1); (q 0 1, q 1 1)]
  = Raise ValueError.
Proof. compute_done. Qed.

Lemma length_cartesian {A} (xs : list (list A)) :
  length (cartesian xs) = product (length <$> xs).
Proof.
  induction xs as [|x rest IH]; [done|].
  cbn [cartesian fmap list_fmap product foldr]. fold (product (length <$> rest)).
  rewrite <-IH. clear IH.
  induction x as [|a x IHx]; [done|].
  change (length (((λ p, a :: p) <$> cartesian rest)
                  ++ (x ≫= λ a, (λ p, a :: p) <$> cartesian rest))
          = length (cartesian rest) + length x * length (cartesian rest)).
  by rewrite length_app, length_fmap, IHx.
Qed.

(** Row [d] of the stacked meshgrid arrays lists coordinate [d] of the
    points of the Cartesian product, in row-major order. *)
Lemma meshgrid_data_cartesian {A} (xs : list (list A)) d g :
  meshgrid_data xs !! d = Some g →
  Some <$> g = (λ p, p !! d) <$> cartesian xs.
Proof.
  revert d g. induction xs as [|x rest IH]; intros d g; [done|].
  cbn [meshgrid_data cartesian]. destruct d as [|d].
  - intros [= <-]. rewrite <-length_cartesian.
    induction x as [|a x IHx]; [done|].
    change (Some <$> (replicate (length (cartesian rest)) a
                      ++ (x ≫= λ a, replicate (length (cartesian rest)) a))
            = (λ p, p !! 0) <$> (((λ p, a :: p) <$> cartesian rest)
                      ++ (x ≫= λ a, (λ p, a :: p) <$> cartesian rest))).
    rewrite !fmap_app, IHx. f_equal.
    rewrite <-list_fmap_compose, fmap_replicate.
    clear. induction (cartesian rest) as [|p l IHl]; [done|].
    cbn. by rewrite <-IHl.
  - intros Hd. rewrite lookup_cons in Hd.
    rewrite list_lookup_fmap in Hd.
    destruct (meshgrid_data rest !! d) as [g'|] eqn:Hg; [|done].
    injection Hd as <-. apply IH in Hg.
    induction x as [|a x IHx]; [done|].
    change (Some <$> (g' ++ mjoin (replicate (length x) g'))
            = (λ p, p !! S d) <$> (((λ p, a :: p) <$> cartesian rest)
                      ++ (x ≫= λ a, (λ p, a :: p) <$> cartesian rest))).
    rewrite !fmap_app, IHx, Hg. f_equal.
    by rewrite <-list_fmap_compose.
Qed.

(** For two to four dimensions the point array has one row per dimension
    and one column per point of the Cartesian product. *)
Lemma layer1_points_layout (dt : int_dtype) (r : Qc) (axes : list axis) :
  (0 < r < 1)%Qc → 2 ≤ length axes ≤ 4 →
  Forall (λ a, 0 < cells a ∧ strictly_inside r a) axes →
  Forall (doubles_within dt) axes →
  center_and_layer1_points (cpe_of dt axes) (center_of axes) (Fin r)
    (domain_of axes)
  = Return (Some
      (Some (NdArray [length axes;
                      length (cartesian (layer1_ladder r <$> axes))]
               (mjoin (meshgrid_data (layer1_ladder r <$> axes)))),
       layer1_ladder r <$> axes)).
Proof.
  intros [_ Hr] Hlen Hall Hdt.
  assert (axes ≠ []) as Hne by (intros ->; simpl in Hlen; lia).
  rewrite layer1_call by auto using Qclt_le_weak.
  rewrite mesh_points_stack by by rewrite length_fmap.
  by rewrite length_cartesian, !length_fmap.
Qed.

(** * Further properties *)

Local Open Scope nat_scope.

(** ** The ladders as progressions *)

Lemma finite_progression (s step : Qc) n :
  finite (progression s step n) = (λ j, Fin (Qn j * step + s)%Qc) <$> seq 0 n.
Proof. unfold finite, progression. by rewrite <-list_fmap_compose. Qed.

Lemma length_progression (s step : Qc) n : length (progression s step n) = n.
Proof. unfold progression. by rewrite length_fmap, length_seq. Qed.

Lemma linspace_finite_progression (s step : Qc) n :
  linspace (Fin s) (Fin (s + Qn (n - 1) * step)%Qc) n
  = finite (progression s step n).
Proof. rewrite finite_progression. apply linspace_progression. Qed.

Lemma layer1_ladder_rungs (r : Qc) (a : axis) :
  0 < cells a → layer1_ladder r a = finite (layer1_rungs r a).
Proof.
  intros Hn. unfold layer1_ladder, layer1_rungs.
  rewrite <-linspace_finite_progression. do 2 f_equal.
  unfold margin, rect_high, rect_low. rewrite Qn_double.
  replace (cells a + 2 - 1) with (S (cells a)) by lia. rewrite Qn_S.
  pose proof (Qn_nonzero _ Hn). field. done.
Qed.

Lemma midpoints_finite_progression (s step : Qc) n :
  midpoints (finite (progression s step (S n)))
  = finite (progression (s + step / 2)%Qc step n).
Proof. rewrite !finite_progression. apply midpoints_progression. Qed.

(** The edges of the ladder of the first layer along one axis. *)
Lemma layer1_ladder_edges (r : Qc) (a : axis) :
  0 < cells a →
  midpoints (layer1_ladder r a)
  = linspace (Fin (rect_low r a)) (Fin (rect_high r a)) (cells a + 1).
Proof.
  intros Hn. rewrite layer1_ladder_rungs by done. unfold layer1_rungs.
  replace (cells a + 2) with (S (cells a + 1)) by lia.
  rewrite midpoints_finite_progression, <-linspace_finite_progression.
  pose proof (Qn_nonzero _ Hn).
  f_equal; f_equal.
  - unfold margin. rewrite Qn_double. field. done.
  - unfold margin, rect_high, rect_low. rewrite Qn_double.
    replace (cells a + 1 - 1) with (cells a) by lia. field. done.
Qed.

(** X1.  For a ratio not above 1, positive cell counts whose doubles are
    values of the type of the array and a hyperrectangle strictly inside
    the domain, [center_and_layer1_points] returns, and
    [edges_from_points] of the ladders it returns is, along each axis,
    [linspace(rect_low, rect_high, cells + 1)]: the edges between the
    points of the first layer cut exactly the hyperrectangle into [cells]
    equal bins. *)
Theorem layer1_edges_tile_hyperrectangle (dt : int_dtype) (r : Qc) (axes : list axis) :
  (r ≤ 1)%Qc → axes ≠ [] →
  Forall (λ a, 0 < cells a ∧ strictly_inside r a) axes →
  Forall (doubles_within dt) axes →
  ∃ points interior_and_layer1,
    center_and_layer1_points (cpe_of dt axes) (center_of axes) (Fin r)
      (domain_of axes)
    = Return (Some (points, interior_and_layer1))
    ∧ edges_from_points interior_and_layer1
      = (λ a, linspace (Fin (rect_low r a)) (Fin (rect_high r a)) (cells a + 1))
          <$> axes.
Proof.
  intros Hr Hne Hall Hdt. rewrite layer1_call by done.
  destruct (mesh_points_returns (layer1_ladder r <$> axes)) as [p ->].
  exists p, (layer1_ladder r <$> axes). split; [done|].
  unfold edges_from_points. rewrite <-list_fmap_compose.
  apply Forall_fmap_ext_1. eapply Forall_impl; [exact Hall|].
  intros a [Hn _]. by apply layer1_ladder_edges.
Qed.

Lemma layer1_edges_tile_hyperrectangle_witness :
  ((Q2Qc (1 # 2) ≤ 1)%Qc ∧ unit_square ≠ []
   ∧ Forall (λ a, 0 < cells a ∧ strictly_inside (Q2Qc (1 # 2)) a) unit_square
   ∧ Forall (doubles_within int64) unit_square)
  ∧ ∃ points interior_and_layer1,
      center_and_layer1_points (cpe_of int64 unit_square) (center_of unit_square)
        (Fin (Q2Qc (1 # 2))) (domain_of unit_square)
      = Return (Some (points, interior_and_layer1))
      ∧ edges_from_points interior_and_layer1
        = (λ a, linspace (Fin (rect_low (Q2Qc (1 # 2)) a))
                  (Fin (rect_high (Q2Qc (1 # 2)) a)) (cells a + 1))
            <$> unit_square.
Proof.
  assert ((Q2Qc (1 # 2) ≤ 1)%Qc) as H1 by discriminate.
  assert (unit_square ≠ []) as H2 by discriminate.
  assert (Forall (λ a, 0 < cells a ∧ strictly_inside (Q2Qc (1 # 2)) a)
            unit_square) as H3.
  { repeat constructor; cbn; lia. }
  assert (Forall (doubles_within int64) unit_square) as H4.
  { repeat constructor; by vm_compute. }
  split; [exact (conj H1 (conj H2 (conj H3 H4)))|].
  exact (layer1_edges_tile_hyperrectangle int64 (Q2Qc (1 # 2)) unit_square H1 H2 H3 H4).
Defined.

(** ** What the containment tests let through *)

(** X2.  The containment tests use [np.all]: for a ratio not above 1 and
    positive cell counts whose doubles are values of the type of the
    array, when the lower face of the hyperrectangle lies strictly inside
    the domain along some axis and the upper face lies strictly inside
    along some axis, [center_and_layer1_points] returns the ladders even
    if the hyperrectangle leaves the domain along other axes. *)
Theorem partly_outside_is_accepted (dt : int_dtype) (r : Qc) (axes : list axis) :
  (r ≤ 1)%Qc → Forall (λ a, 0 < cells a) axes →
  Forall (doubles_within dt) axes →
  Exists (λ a, low a < rect_low r a)%Qc axes →
  Exists (λ a, rect_high r a < high a)%Qc axes →
  ∃ points,
    center_and_layer1_points (cpe_of dt axes) (center_of axes) (Fin r)
      (domain_of axes)
    = Return (Some (points, layer1_ladder r <$> axes)).
Proof.
  intros Hr Hcells Hdt Hlo Hhi.
  rewrite layer1_call_passed, ladders_within by done.
  destruct (mesh_points_returns (layer1_ladder r <$> axes)) as [p ->].
  by exists p.
Qed.

Lemma partly_outside_is_accepted_witness :
  ((Q2Qc (1 # 2) ≤ 1)%Qc
   ∧ Forall (λ a, 0 < cells a) skewed_square
   ∧ Forall (doubles_within int64) skewed_square
   ∧ Exists (λ a, low a < rect_low (Q2Qc (1 # 2)) a)%Qc skewed_square
   ∧ Exists (λ a, rect_high (Q2Qc (1 # 2)) a < high a)%Qc skewed_square)
  ∧ ∃ points,
      center_and_layer1_points (cpe_of int64 skewed_square) (center_of skewed_square)
        (Fin (Q2Qc (1 # 2))) (domain_of skewed_square)
      = Return (Some (points, layer1_ladder (Q2Qc (1 # 2)) <$> skewed_square)).
Proof.
  assert ((Q2Qc (1 # 2) ≤ 1)%Qc) as H1 by discriminate.
  assert (Forall (λ a, 0 < cells a) skewed_square) as H2
    by (repeat constructor).
  assert (Forall (doubles_within int64) skewed_square) as H5.
  { repeat constructor; by vm_compute. }
  assert (Exists (λ a, low a < rect_low (Q2Qc (1 # 2)) a)%Qc skewed_square)
    as H3 by (right; left; reflexivity).
  assert (Exists (λ a, rect_high (Q2Qc (1 # 2)) a < high a)%Qc skewed_square)
    as H4 by (left; reflexivity).
  split; [exact (conj H1 (conj H2 (conj H5 (conj H3 H4))))|].
  exact (partly_outside_is_accepted int64 (Q2Qc (1 # 2)) skewed_square
           H1 H2 H5 H3 H4).
Defined.

(** ** The point array by dimension *)

(** X3.  In one dimension, for a positive count whose double is a value
    of the type of the array, the point array of
    [center_and_layer1_points] is the ladder itself, a one-dimensional
    array of [cells + 2] entries. *)
Theorem points_in_one_dimension (dt : int_dtype) (r : Qc) (a : axis) :
  (r ≤ 1)%Qc → 0 < cells a → strictly_inside r a → doubles_within dt a →
  center_and_layer1_points (cpe_of dt [a]) (center_of [a]) (Fin r) (domain_of [a])
  = Return (Some (Some (NdArray [cells a + 2] (layer1_ladder r a)),
                  [layer1_ladder r a])).
Proof.
  intros Hr Hn Hin Hdt.
  rewrite layer1_call;
    [|done|done|by apply Forall_singleton|by apply Forall_singleton].
  change (mesh_points (length (layer1_ladder r <$> [a]))
            (layer1_ladder r <$> [a]))
    with (Return (Some (array1 (layer1_ladder r a)))
          : result (option (ndarray npfloat))).
  unfold array1. unfold layer1_ladder at 1. by rewrite length_linspace.
Qed.

Lemma points_in_one_dimension_witness :
  ((Q2Qc (1 # 2) ≤ 1)%Qc ∧ 0 < cells (Axis 2 (Q2Qc (1 # 2)) 0%Qc 1%Qc)
   ∧ strictly_inside (Q2Qc (1 # 2)) (Axis 2 (Q2Qc (1 # 2)) 0%Qc 1%Qc)
   ∧ doubles_within int64 (Axis 2 (Q2Qc (1 # 2)) 0%Qc 1%Qc))
  ∧ center_and_layer1_points (cpe_of int64 unit_interval) (center_of unit_interval)
      (Fin (Q2Qc (1 # 2))) (domain_of unit_interval)
    = Return (Some (Some (NdArray [cells (Axis 2 (Q2Qc (1 # 2)) 0%Qc 1%Qc) + 2]
                            (layer1_ladder (Q2Qc (1 # 2))
                               (Axis 2 (Q2Qc (1 # 2)) 0%Qc 1%Qc))),
                    [layer1_ladder (Q2Qc (1 # 2))
                       (Axis 2 (Q2Qc (1 # 2)) 0%Qc 1%Qc)])).
Proof.
  assert ((Q2Qc (1 # 2) ≤ 1)%Qc) as H1 by discriminate.
  assert (0 < cells (Axis 2 (Q2Qc (1 # 2)) 0%Qc 1%Qc)) as H2 by (cbn; lia).
  assert (strictly_inside (Q2Qc (1 # 2)) (Axis 2 (Q2Qc (1 # 2)) 0%Qc 1%Qc))
    as H3 by (split; reflexivity).
  assert (doubles_within int64 (Axis 2 (Q2Qc (1 # 2)) 0%Qc 1%Qc)) as H4
    by by vm_compute.
  split; [exact (conj H1 (conj H2 (conj H3 H4)))|].
  exact (points_in_one_dimension int64 (Q2Qc (1 # 2))
           (Axis 2 (Q2Qc (1 # 2)) 0%Qc 1%Qc) H1 H2 H3 H4).
Defined.

(** X4.  In two or three dimensions, for positive counts whose doubles
    are values of the type of the array, the point array of
    [center_and_layer1_points] has shape [(dim, num_points)] with
    [num_points] the number of points of the Cartesian product of the
    ladders, and row [d] lists coordinate [d] of the points of that
    product in row-major order. *)
Theorem points_are_the_transposed_product (dt : int_dtype) (r : Qc) (axes : list axis) :
  (r ≤ 1)%Qc → 2 ≤ length axes ≤ 3 →
  Forall (λ a, 0 < cells a ∧ strictly_inside r a) axes →
  Forall (doubles_within dt) axes →
  ∃ rows,
    center_and_layer1_points (cpe_of dt axes) (center_of axes) (Fin r)
      (domain_of axes)
    = Return (Some
        (Some (NdArray [length axes;
                        length (cartesian (layer1_ladder r <$> axes))]
                 (mjoin rows)),
         layer1_ladder r <$> axes))
    ∧ length rows = length axes
    ∧ ∀ d row, rows !! d = Some row →
        Some <$> row = (λ p, p !! d) <$> cartesian (layer1_ladder r <$> axes).
Proof.
  intros Hr Hlen Hall Hdt.
  assert (axes ≠ []) as Hne by (intros ->; simpl in Hlen; lia).
  exists (meshgrid_data (layer1_ladder r <$> axes)). split; [|split].
  - rewrite layer1_call by done.
    rewrite mesh_points_stack by (rewrite length_fmap; lia).
    by rewrite length_cartesian, !length_fmap.
  - clear. induction axes as [|a axes IH]; [done|].
    cbn [fmap list_fmap meshgrid_data length]. by rewrite length_fmap, IH.
  - apply meshgrid_data_cartesian.
Qed.

Lemma points_are_the_transposed_product_witness :
  ((Q2Qc (1 # 2) ≤ 1)%Qc ∧ 2 ≤ length unit_square ≤ 3
   ∧ Forall (λ a, 0 < cells a ∧ strictly_inside (Q2Qc (1 # 2)) a) unit_square
   ∧ Forall (doubles_within int64) unit_square)
  ∧ ∃ rows,
      center_and_layer1_points (cpe_of int64 unit_square) (center_of unit_square)
        (Fin (Q2Qc (1 # 2))) (domain_of unit_square)
      = Return (Some
          (Some (NdArray [length unit_square;
                          length (cartesian (layer1_ladder (Q2Qc (1 # 2))
                                               <$> unit_square))]
                   (mjoin rows)),
           layer1_ladder (Q2Qc (1 # 2)) <$> unit_square))
      ∧ length rows = length unit_square
      ∧ ∀ d row, rows !! d = Some row →
          Some <$> row
          = (λ p, p !! d)
              <$> cartesian (layer1_ladder (Q2Qc (1 # 2)) <$> unit_square).
Proof.
  assert ((Q2Qc (1 # 2) ≤ 1)%Qc) as H1 by discriminate.
  assert (2 ≤ length unit_square ≤ 3) as H2 by (cbn; lia).
  assert (Forall (λ a, 0 < cells a ∧ strictly_inside (Q2Qc (1 # 2)) a)
            unit_square) as H3.
  { repeat constructor; cbn; lia. }
  assert (Forall (doubles_within int64) unit_square) as H4.
  { repeat constructor; by vm_compute. }
  split; [exact (conj H1 (conj H2 (conj H3 H4)))|].
  exact (points_are_the_transposed_product int64 (Q2Qc (1 # 2)) unit_square
           H1 H2 H3 H4).
Defined.

(** X5.  Above four dimensions, for positive counts whose doubles are
    values of the type of the array, [center_and_layer1_points] still
    returns the ladders, but [points] is [None]: no point array is
    built. *)
Theorem no_points_above_four_dimensions (dt : int_dtype) (r : Qc) (axes : list axis) :
  (r ≤ 1)%Qc → 4 < length axes →
  Forall (λ a, 0 < cells a ∧ strictly_inside r a) axes →
  Forall (doubles_within dt) axes →
  center_and_layer1_points (cpe_of dt axes) (center_of axes) (Fin r)
    (domain_of axes)
  = Return (Some (None, layer1_ladder r <$> axes)).
Proof.
  intros Hr Hlen Hall Hdt.
  assert (axes ≠ []) as Hne by (intros ->; simpl in Hlen; lia).
  rewrite layer1_call by done.
  destruct axes as [|a [|b [|c [|d [|e axes]]]]]; simpl in Hlen; try lia.
  reflexivity.
Qed.

Lemma no_points_above_four_dimensions_witness :
  ((Q2Qc (1 # 2) ≤ 1)%Qc ∧ 4 < length unit_cube5
   ∧ Forall (λ a, 0 < cells a ∧ strictly_inside (Q2Qc (1 # 2)) a) unit_cube5
   ∧ Forall (doubles_within int64) unit_cube5)
  ∧ center_and_layer1_points (cpe_of int64 unit_cube5) (center_of unit_cube5)
      (Fin (Q2Qc (1 # 2))) (domain_of unit_cube5)
    = Return (Some (None, layer1_ladder (Q2Qc (1 # 2)) <$> unit_cube5)).
Proof.
  assert ((Q2Qc (1 # 2) ≤ 1)%Qc) as H1 by discriminate.
  assert (4 < length unit_cube5) as H2 by (cbn; lia).
  assert (Forall (λ a, 0 < cells a ∧ strictly_inside (Q2Qc (1 # 2)) a)
            unit_cube5) as H3.
  { repeat constructor; cbn; lia. }
  assert (Forall (doubles_within int64) unit_cube5) as H4.
  { repeat constructor; by vm_compute. }
  split; [exact (conj H1 (conj H2 (conj H3 H4)))|].
  exact (no_points_above_four_dimensions int64 (Q2Qc (1 # 2)) unit_cube5
           H1 H2 H3 H4).
Defined.

(** ** A Python list of counts *)

Lemma broadcast_doubled {A B C D} (f : A → B → C) (g : D → A) (h : D → B) l :
  2 ≤ length l →
  broadcast f (g <$> l) (h <$> (l ++ l)) = Raise ValueError.
Proof.
  intros Hlen. unfold broadcast.
  rewrite decide_False by (rewrite !length_fmap, length_app; lia).
  by destruct l as [|x [|y l]]; simpl in Hlen; [lia..|].
Qed.

(** X6.  With [center_pts_per_edge] a Python list, as the docstring
    types it, and two or more dimensions, [2*center_pts_per_edge] is the
    list repeated, twice as long as [rect_width], and both generators
    raise [ValueError] on an input that passes the containment tests. *)
Theorem list_of_counts_cannot_be_broadcast (r : Qc) (axes : list axis) :
  (r ≤ 1)%Qc → 2 ≤ length axes →
  Forall (λ a, strictly_inside r a) axes →
  center_and_layer1_points (PyList (cells <$> axes)) (center_of axes) (Fin r)
    (domain_of axes) = Raise ValueError
  ∧ center_and_layer2_points (PyList (cells <$> axes)) (center_of axes) (Fin r)
      (domain_of axes) = Raise ValueError.
Proof.
  intros Hr Hlen Hall.
  assert (axes ≠ []) as Hne by (intros ->; simpl in Hlen; lia).
  assert (layer1_bounds (PyList (cells <$> axes)) (center_of axes) (Fin r)
            (domain_of axes) = Raise ValueError) as Hb.
  { unfold layer1_bounds, center_of, domain_of.
    change (fgt (Fin r) one) with (bool_decide (1 < r)%Qc).
    rewrite bool_decide_eq_false_2 by by apply Qcle_not_lt.
    cbn [times2 items].
    rewrite <-!list_fmap_compose, zip_with_fmap_same, <-!list_fmap_compose.
    rewrite !broadcast_fmap. cbn [mbind result_bind].
    rewrite !assign_column_fmap. cbn [mbind result_bind].
    rewrite !zip_with_fmap_same.
    rewrite (np_all_fmap_false _ _ Hne).
    2:{ eapply Forall_impl; [exact Hall|]. intros a [Hlo _].
        by apply bool_decide_eq_false_2, Qclt_not_le. }
    rewrite (np_all_fmap_false _ _ Hne).
    2:{ eapply Forall_impl; [exact Hall|]. intros a [_ Hhi].
        by apply bool_decide_eq_false_2, Qclt_not_le. }
    rewrite <-fmap_app, <-list_fmap_compose.
    by rewrite broadcast_doubled. }
  unfold center_and_layer1_points, center_and_layer2_points.
  by rewrite Hb.
Qed.

Lemma list_of_counts_cannot_be_broadcast_witness :
  ((Q2Qc (1 # 2) ≤ 1)%Qc ∧ 2 ≤ length unit_square
   ∧ Forall (λ a, strictly_inside (Q2Qc (1 # 2)) a) unit_square)
  ∧ center_and_layer1_points (PyList (cells <$> unit_square))
      (center_of unit_square) (Fin (Q2Qc (1 # 2))) (domain_of unit_square)
    = Raise ValueError
  ∧ center_and_layer2_points (PyList (cells <$> unit_square))
      (center_of unit_square) (Fin (Q2Qc (1 # 2))) (domain_of unit_square)
    = Raise ValueError.
Proof.
  assert ((Q2Qc (1 # 2) ≤ 1)%Qc) as H1 by discriminate.
  assert (2 ≤ length unit_square) as H2 by (cbn; lia).
  assert (Forall (λ a, strictly_inside (Q2Qc (1 # 2)) a) unit_square) as H3.
  { repeat constructor. }
  split; [exact (conj H1 (conj H2 H3))|].
  exact (list_of_counts_cannot_be_broadcast (Q2Qc (1 # 2)) unit_square H1 H2 H3).
Defined.

(** ** Regular edges *)

Lemma hyperrectangle_axes (r : Qc) (axes : list axis) :
  hyperrectangle (center_of axes) (Fin r) (domain_of axes) =
  if bool_decide (1 < r)%Qc then Return None
  else if np_all ((λ a, bool_decide (rect_low r a ≤ low a)%Qc) <$> axes)
  then Return None
  else if np_all ((λ a, bool_decide (high a ≤ rect_high r a)%Qc) <$> axes)
  then Return None
  else Return (Some ((λ a, Fin (rect_low r a)) <$> axes,
                     (λ a, Fin (rect_high r a)) <$> axes)).
Proof.
  unfold hyperrectangle, center_of, domain_of.
  change (fgt (Fin r) one) with (bool_decide (1 < r)%Qc).
  destruct (bool_decide (1 < r)%Qc); [done|].
  rewrite <-!list_fmap_compose, zip_with_fmap_same, <-!list_fmap_compose.
  rewrite !broadcast_fmap.
  cbn [mbind result_bind].
  rewrite !assign_column_fmap. cbn [mbind result_bind].
  rewrite !zip_with_fmap_same.
  reflexivity.
Qed.

(** The containment tests of an empty domain hold. *)
Lemma hyperrectangle_empty_domain (center : list npfloat) (r_ratio : npfloat) rect :
  hyperrectangle center r_ratio [] ≠ Return (Some rect).
Proof.
  unfold hyperrectangle. destruct (fgt r_ratio one); [done|].
  cbn [fmap list_fmap zip_with length].
  destruct (broadcast fsub center []) as [v|e] eqn:Hv; [|done].
  cbn [mbind result_bind].
  destruct (assign_column 0 v) as [lo|e] eqn:Hlo; [|done].
  cbn [mbind result_bind].
  destruct (broadcast fadd center []) as [w|e] eqn:Hw; [|done].
  cbn [mbind result_bind].
  destruct (assign_column 0 w) as [hi|e] eqn:Hhi; [|done].
  done.
Qed.

(** X8.  [edges_regular] never returns edges, whatever its arguments: it
    returns [None] or raises. *)
Theorem edges_regular_returns_no_edges (center_pts_per_edge : int_seq)
    (center : list npfloat) (r_ratio : npfloat)
    (sur_domain : list (npfloat * npfloat)) (edges : list (list npfloat)) :
  edges_regular center_pts_per_edge center r_ratio sur_domain
  ≠ Return (Some edges).
Proof.
  unfold edges_regular.
  destruct (hyperrectangle center r_ratio sur_domain) as [[rect|]|e] eqn:Hrect;
    [|done..].
  destruct sur_domain as [|row sur_domain].
  - by apply hyperrectangle_empty_domain in Hrect.
  - done.
Qed.

(** X9.  On an input that passes the ratio test and the two containment
    tests, [edges_regular] raises [NameError]: the loop reads [rect], a
    name bound nowhere, where the lines above fill [rect_domain]. *)
Theorem edges_regular_reads_unbound_rect (center_pts_per_edge : int_seq)
    (r : Qc) (axes : list axis) :
  (r ≤ 1)%Qc →
  Exists (λ a, low a < rect_low r a)%Qc axes →
  Exists (λ a, rect_high r a < high a)%Qc axes →
  edges_regular center_pts_per_edge (center_of axes) (Fin r) (domain_of axes)
  = Raise NameError.
Proof.
  intros Hr Hlo Hhi. unfold edges_regular. rewrite hyperrectangle_axes.
  rewrite bool_decide_eq_false_2 by by apply Qcle_not_lt.
  rewrite np_all_fmap_exists.
  2:{ eapply Exists_impl; [exact Hlo|]. intros a Ha.
      by apply bool_decide_eq_false_2, Qclt_not_le. }
  rewrite np_all_fmap_exists.
  2:{ eapply Exists_impl; [exact Hhi|]. intros a Ha.
      by apply bool_decide_eq_false_2, Qclt_not_le. }
  destruct axes as [|a axes]; [by apply Exists_nil in Hlo|].
  reflexivity.
Qed.

Lemma edges_regular_reads_unbound_rect_witness :
  ((Q2Qc (1 # 2) ≤ 1)%Qc
   ∧ Exists (λ a, low a < rect_low (Q2Qc (1 # 2)) a)%Qc unit_square
   ∧ Exists (λ a, rect_high (Q2Qc (1 # 2)) a < high a)%Qc unit_square)
  ∧ edges_regular (IntArray int64 [2; 2]) (center_of unit_square)
      (Fin (Q2Qc (1 # 2))) (domain_of unit_square)
    = Raise NameError.
Proof.
  assert ((Q2Qc (1 # 2) ≤ 1)%Qc) as H1 by discriminate.
  assert (Exists (λ a, low a < rect_low (Q2Qc (1 # 2)) a)%Qc unit_square)
    as H2 by (left; reflexivity).
  assert (Exists (λ a, rect_high (Q2Qc (1 # 2)) a < high a)%Qc unit_square)
    as H3 by (left; reflexivity).
  split; [exact (conj H1 (conj H2 H3))|].
  exact (edges_regular_reads_unbound_rect (IntArray int64 [2; 2]) (Q2Qc (1 # 2))
           unit_square H1 H2 H3).
Defined.

(** X10.  [edges_regular] returns [None] when the ratio exceeds 1, when
    the lower face of the hyperrectangle is not strictly inside the domain
    along every axis, or when the upper face is not, like the grid
    generators. *)
Theorem edges_regular_rejects_like_the_grid (center_pts_per_edge : int_seq)
    (r : Qc) (axes : list axis) :
  (1 < r)%Qc
  ∨ Forall (λ a, rect_low r a ≤ low a)%Qc axes
  ∨ Forall (λ a, high a ≤ rect_high r a)%Qc axes →
  edges_regular center_pts_per_edge (center_of axes) (Fin r) (domain_of axes)
  = Return None.
Proof.
  intros Hrej. unfold edges_regular. rewrite hyperrectangle_axes.
  case_bool_decide as Hr; [done|].
  destruct Hrej as [?|[Hlo|Hhi]]; [done| |].
  - rewrite np_all_fmap_true; [done|].
    eapply Forall_impl; [exact Hlo|]. intros a Ha.
    by apply bool_decide_eq_true_2.
  - destruct (np_all _); [done|].
    rewrite np_all_fmap_true; [done|].
    eapply Forall_impl; [exact Hhi|]. intros a Ha.
    by apply bool_decide_eq_true_2.
Qed.

Lemma edges_regular_rejects_like_the_grid_witness :
  ((1 < Q2Qc (3 # 2))%Qc
   ∨ Forall (λ a, rect_low (Q2Qc (3 # 2)) a ≤ low a)%Qc unit_interval
   ∨ Forall (λ a, high a ≤ rect_high (Q2Qc (3 # 2)) a)%Qc unit_interval)
  ∧ edges_regular (IntArray int64 [2]) (center_of unit_interval)
      (Fin (Q2Qc (3 # 2))) (domain_of unit_interval)
    = Return None.
Proof.
  assert ((1 < Q2Qc (3 # 2))%Qc
   ∨ Forall (λ a, rect_low (Q2Qc (3 # 2)) a ≤ low a)%Qc unit_interval
   ∨ Forall (λ a, high a ≤ rect_high (Q2Qc (3 # 2)) a)%Qc unit_interval) as H.
  { left. reflexivity. }
  split; [exact H|].
  exact (edges_regular_rejects_like_the_grid (IntArray int64 [2]) (Q2Qc (3 # 2))
           unit_interval H).
Defined.

(** ** Edges between the points *)

Lemma half_pos : (0 < / 2)%Qc.
Proof. by apply Qcinv_pos. Qed.

Lemma mean_le (a b x : Qc) : (a ≤ x → b ≤ x → (b + a) / 2 ≤ x)%Qc.
Proof.
  intros Ha Hb. apply Qcle_trans with ((x + x) / 2)%Qc.
  - apply Qcmult_le_compat_r; [by apply Qcplus_le_compat|].
    apply Qclt_le_weak, half_pos.
  - replace ((x + x) / 2)%Qc with x by (field; done). apply Qcle_refl.
Qed.

Lemma mean_gt (a b x : Qc) : (x ≤ a → x < b → x < (b + a) / 2)%Qc.
Proof.
  intros Ha Hb. apply Qcle_lt_trans with ((x + x) / 2)%Qc.
  - replace ((x + x) / 2)%Qc with x by (field; done). apply Qcle_refl.
  - apply Qcmult_lt_compat_r; [apply half_pos|].
    apply Qclt_le_trans with (b + x)%Qc;
      [by apply Qcplus_lt_mono_r|by apply Qcplus_le_mono_l].
Qed.

Lemma midpoints_cons2 (x y : npfloat) t :
  midpoints (x :: y :: t) = fdiv (fadd y x) two :: midpoints (y :: t).
Proof. reflexivity. Qed.

Lemma length_midpoints (l : list npfloat) : length (midpoints l) = length l - 1.
Proof.
  induction l as [|x [|y t] IH]; [done..|].
  rewrite midpoints_cons2. cbn [length] in *. rewrite IH. lia.
Qed.

Lemma midpoints_app (l1 : list npfloat) x l2 :
  midpoints (l1 ++ x :: l2) = midpoints (l1 ++ [x]) ++ midpoints (x :: l2).
Proof.
  induction l1 as [|a [|b t] IH]; [done..|].
  cbn [app] in *. by rewrite !midpoints_cons2, IH.
Qed.

(** X11.  [edges_from_points] returns one ladder of edges per ladder of
    points, each one entry shorter than its ladder of points (and empty
    for a ladder of at most one point). *)
Theorem edges_from_points_shape (points : list (list npfloat)) :
  length <$> edges_from_points points
  = (λ ladder, length ladder - 1) <$> points.
Proof.
  unfold edges_from_points. rewrite <-list_fmap_compose.
  apply list_fmap_ext. intros _ ladder _. apply length_midpoints.
Qed.

Lemma midpoints_below (pre : list Qc) (x : Qc) :
  Forall (λ q, q < x)%Qc pre →
  Forall (λ e, fle e (Fin x) = true) (midpoints (finite (pre ++ [x]))).
Proof.
  induction 1 as [|a pre Ha Hpre IH]; [constructor|].
  destruct pre as [|b pre].
  - repeat constructor. apply bool_decide_eq_true_2.
    apply mean_le; [by apply Qclt_le_weak|apply Qcle_refl].
  - change (finite ((a :: b :: pre) ++ [x]))
      with (Fin a :: Fin b :: finite (pre ++ [x])).
    rewrite midpoints_cons2. constructor; [|exact IH].
    apply bool_decide_eq_true_2. apply Forall_cons_1 in Hpre as [Hb _].
    apply mean_le; by apply Qclt_le_weak.
Qed.

Lemma midpoints_above (l : list Qc) (x : Qc) :
  Forall (λ q, x < q)%Qc l →
  Forall (λ e, fle e (Fin x) = false) (midpoints (finite l)).
Proof.
  induction 1 as [|a l Ha Hl IH]; [constructor|].
  destruct l as [|b l]; [constructor|].
  change (finite (a :: b :: l)) with (Fin a :: Fin b :: finite l).
  rewrite midpoints_cons2. constructor; [|exact IH].
  apply bool_decide_eq_false_2, Qclt_not_le.
  apply Forall_cons_1 in Hl as [Hb _].
  apply mean_gt; [by apply Qclt_le_weak|done].
Qed.

Lemma midpoints_above_first (post : list Qc) (x : Qc) :
  Forall (λ q, x < q)%Qc post →
  Forall (λ e, fle e (Fin x) = false) (midpoints (finite (x :: post))).
Proof.
  intros Hpost. destruct post as [|b post]; [constructor|].
  change (finite (x :: b :: post)) with (Fin x :: Fin b :: finite post).
  rewrite midpoints_cons2. constructor;
    [|exact (midpoints_above (b :: post) x Hpost)].
  apply bool_decide_eq_false_2, Qclt_not_le.
  apply Forall_cons_1 in Hpost as [Hb _].
  apply mean_gt; [apply Qcle_refl|done].
Qed.

Lemma filter_all {A} (P : A → Prop) `{!∀ x, Decision (P x)} (l : list A) :
  Forall P l → filter P l = l.
Proof.
  induction 1 as [|x l Hx _ IH]; [done|].
  by rewrite filter_cons_True, IH.
Qed.

Lemma filter_none {A} (P : A → Prop) `{!∀ x, Decision (P x)} (l : list A) :
  Forall (λ x, ¬ P x) l → filter P l = [].
Proof.
  induction 1 as [|x l Hx _ IH]; [done|].
  by rewrite filter_cons_False.
Qed.

Lemma edges_up_to_point (pre post : list Qc) (x : Qc) :
  Forall (λ q, q < x)%Qc pre → Forall (λ q, x < q)%Qc post →
  length (filter (λ ei, fle ei (Fin x) = true)
            (midpoints (finite (pre ++ x :: post))))
  = length pre.
Proof.
  intros Hlt Hgt.
  change (finite (pre ++ x :: post)) with (Fin <$> pre ++ x :: post).
  rewrite fmap_app, fmap_cons, midpoints_app, filter_app.
  change ((Fin <$> pre) ++ [Fin x]) with (finite pre ++ finite [x]).
  unfold finite at 1 2. rewrite <-fmap_app. fold (finite (pre ++ [x])).
  rewrite (filter_all _ _ (midpoints_below pre x Hlt)).
  rewrite (filter_none _ (midpoints (Fin x :: (Fin <$> post)))).
  2:{ eapply Forall_impl; [exact (midpoints_above_first post x Hgt)|].
      intros e He. by rewrite He. }
  rewrite length_app, length_midpoints. unfold finite.
  rewrite length_fmap, length_app. cbn [length]. lia.
Qed.

(** The bin of a point of the ladder among the edges of the ladder. *)
Lemma bin_of_ladder_point (pre post : list Qc) (x : Qc) :
  pre ≠ [] → post ≠ [] →
  Forall (λ q, q < x)%Qc pre → Forall (λ q, x < q)%Qc post →
  bin_of (midpoints (finite (pre ++ x :: post))) (Fin x)
  = Some (length pre - 1).
Proof.
  intros Hpre Hpost Hlt Hgt. unfold bin_of, nbins. cbn zeta.
  rewrite edges_up_to_point by done.
  rewrite length_midpoints. unfold finite.
  rewrite length_fmap, length_app. cbn [length].
  destruct pre as [|a pre]; [done|]. destruct post as [|b post]; [done|].
  cbn [length]. rewrite decide_False by lia. by rewrite decide_True by lia.
Qed.

Lemma midpoints_twice (s step : Qc) (n : nat) :
  midpoints (midpoints (finite (progression s step (S (S n)))))
  = interior (finite (progression s step (S (S n)))).
Proof.
  pose proof (centers_round_trip s step n) as Hrt. cbn zeta in Hrt.
  unfold edges_from_points in Hrt. cbn [fmap list_fmap] in Hrt.
  rewrite !finite_progression. by injection Hrt.
Qed.

(** X12.  [edges_from_points] applied to the bin centres of evenly spaced
    edges (its own output for evenly spaced points, and the [centers]
    that [points_from_edges] computes with the same expression) gives the
    edges back without the first and the last one of each dimension. *)
Theorem edges_of_centres_lose_outer_edges (edges : list (list npfloat)) :
  Forall (λ e, ∃ s step n, e = finite (progression s step (S (S n)))) edges →
  edges_from_points (edges_from_points edges) = interior <$> edges.
Proof.
  intros Hall. unfold edges_from_points. rewrite <-list_fmap_compose.
  apply Forall_fmap_ext_1. eapply Forall_impl; [exact Hall|].
  intros e (s & step & n & ->). apply midpoints_twice.
Qed.

Lemma edges_of_centres_lose_outer_edges_witness :
  Forall (λ e, ∃ s step n, e = finite (progression s step (S (S n))))
    [four_rungs]
  ∧ edges_from_points (edges_from_points [four_rungs])
    = interior <$> [four_rungs].
Proof.
  assert (Forall (λ e, ∃ s step n, e = finite (progression s step (S (S n))))
            [four_rungs]) as H1.
  { apply Forall_singleton. by exists 0%Qc, 1%Qc, 2. }
  split; [exact H1|].
  exact (edges_of_centres_lose_outer_edges [four_rungs] H1).
Defined.

(** ** The volumes of a regular grid *)

Lemma interior_lookup {A} (l : list A) i x :
  interior l !! i = Some x → l !! S i = Some x ∧ S (S i) < length l.
Proof.
  unfold interior. rewrite removelast_firstn_len.
  change (firstn ?n ?k) with (take n k).
  intros [Hi Hlt]%lookup_take_Some.
  destruct l as [|a l]; [done|]. cbn [tail length] in *. split; [done|].
  apply lookup_lt_Some in Hi. lia.
Qed.

Lemma length_interior {A} (l : list A) : length (interior l) = length l - 2.
Proof.
  unfold interior. rewrite removelast_firstn_len.
  change (firstn ?n ?k) with (take n k). rewrite length_take.
  destruct l as [|a l]; cbn [tail length]; lia.
Qed.

Lemma interior_fmap {A B} (f : A → B) (l : list A) :
  interior (f <$> l) = f <$> interior l.
Proof.
  unfold interior. rewrite !removelast_firstn_len.
  change (firstn ?n ?k) with (take n k).
  destruct l as [|a l]; [done|]. cbn [fmap list_fmap tail].
  by rewrite fmap_take, length_fmap.
Qed.

(** An interior point of a strictly increasing ladder lies in the bin of
    its own position among the edges of the ladder. *)
Lemma interior_point_bin (l : list Qc) (i : nat) (x : Qc) :
  StronglySorted Qclt l → interior l !! i = Some x →
  bin_of (midpoints (finite l)) (Fin x) = Some i.
Proof.
  intros Hsorted [Hi Hlen]%interior_lookup.
  rewrite <-(take_drop_middle l (S i) x Hi) in Hsorted |- *.
  assert (length (take (S i) l) = S i) as Htake
    by (rewrite length_take; lia).
  assert (length (drop (S (S i)) l) ≠ 0) as Hdrop
    by (rewrite length_drop; lia).
  rewrite bin_of_ladder_point.
  - rewrite Htake. f_equal. lia.
  - intros Hnil. by rewrite Hnil in Htake.
  - intros Hnil. by rewrite Hnil in Hdrop.
  - apply Forall_forall. intros q Hq.
    eapply (StronglySorted_app_1_elem_of Qclt); [exact Hsorted|done|left].
  - apply StronglySorted_app_1_r, StronglySorted_cons in Hsorted.
    by destruct Hsorted.
Qed.

(** ** Counting the points of a grid cell by cell *)

Lemma filter_length_iff {A} (P Q : A → Prop) `{!∀ x, Decision (P x)}
    `{!∀ x, Decision (Q x)} (l : list A) :
  (∀ x, P x ↔ Q x) → length (filter P l) = length (filter Q l).
Proof. intros HPQ. by rewrite (list_filter_iff P Q l HPQ). Qed.

Lemma filter_length_fmap {A B} (f : A → B) (P : B → Prop)
    `{!∀ y, Decision (P y)} (l : list A) :
  length (filter P (f <$> l)) = length (filter (λ x, P (f x)) l).
Proof.
  induction l as [|x l IH]; [done|]. cbn [fmap list_fmap].
  destruct (decide (P (f x))) as [Hx|Hx].
  - rewrite !filter_cons_True by done. cbn [length]. by rewrite <-IH.
  - by rewrite !filter_cons_False by done.
Qed.

(** A list whose entries carry their own position holds each position once. *)
Lemma count_indexed {A} (f : A → option nat) (l : list A) :
  (∀ k y, l !! k = Some y → f y = Some k) →
  ∀ i, length (filter (λ a, f a = Some i) l) = if decide (i < length l) then 1 else 0.
Proof.
  induction l as [|y l IH] using rev_ind; intros Hidx i.
  { cbn. by rewrite decide_False by lia. }
  rewrite filter_app, !length_app. cbn [length].
  rewrite IH.
  2:{ intros k z Hk. apply Hidx. by apply lookup_app_l_Some. }
  assert (f y = Some (length l)) as Hy.
  { apply Hidx. by rewrite lookup_app_r, Nat.sub_diag by lia. }
  destruct (decide (i = length l)) as [->|Hne].
  - rewrite filter_cons_True by done. cbn.
    rewrite decide_False by lia. by rewrite decide_True by lia.
  - rewrite filter_cons_False by (rewrite Hy; congruence). cbn.
    repeat case_decide; lia.
Qed.

Lemma flat_bin_cons (e : list npfloat) (es : list (list npfloat))
    (a : npfloat) (p : list npfloat) (j : nat) :
  flat_bin (e :: es) (a :: p) = Some j
  ↔ 0 < product (nbins <$> es)
    ∧ bin_of e a = Some (j / product (nbins <$> es))
    ∧ flat_bin es p = Some (j mod product (nbins <$> es)).
Proof.
  cbn [flat_bin]. set (P := product (nbins <$> es)).
  destruct (bin_of e a) as [i|] eqn:Hi; cbn; [|split; [done|by intros (_ & ? & _)]].
  destruct (flat_bin es p) as [r|] eqn:Hr; cbn; [|split; [done|by intros (_ & _ & ?)]].
  pose proof (flat_bin_lt _ _ _ Hr) as Hlt. fold P in Hlt.
  split.
  - intros [= <-]. split; [lia|].
    rewrite Nat.div_add_l, Nat.div_small, Nat.add_0_r by lia.
    rewrite Nat.add_comm, Nat.Div0.mod_add, Nat.mod_small by lia. done.
  - intros (HP & [= ->] & [= ->]). f_equal.
    rewrite Nat.mul_comm. symmetry. apply Nat.div_mod_eq.
Qed.

Lemma cell_count_cons (e : list npfloat) (es : list (list npfloat))
    (x : list npfloat) (C : list (list npfloat)) (j : nat) :
  0 < product (nbins <$> es) →
  cell_count (e :: es) (a ← x; (λ p, a :: p) <$> C) j
  = length (filter (λ a, bin_of e a = Some (j / product (nbins <$> es))) x)
    * cell_count es C (j mod product (nbins <$> es)).
Proof.
  intros HP. unfold cell_count.
  induction x as [|a x IH]; [done|].
  cbn [mbind list_bind]. rewrite filter_app, length_app, IH.
  rewrite filter_length_fmap.
  destruct (decide (bin_of e a = Some (j / product (nbins <$> es)))) as [Ha|Ha].
  - rewrite (filter_cons_True _ a x) by done. cbn [length].
    rewrite (filter_length_iff _
               (λ p, flat_bin es p = Some (j mod product (nbins <$> es)))).
    + lia.
    + intros p. rewrite flat_bin_cons. tauto.
  - rewrite (filter_cons_False _ a x) by done.
    rewrite filter_none; [done|].
    apply Forall_forall. intros p _. rewrite flat_bin_cons. tauto.
Qed.

(** With one point per bin along each axis, the product of the axes has
    one point per cell. *)
Lemma cell_count_cartesian (es xs : list (list npfloat)) :
  Forall2 (λ e x, ∀ i, i < nbins e →
             length (filter (λ a, bin_of e a = Some i) x) = 1) es xs →
  ∀ j, j < product (nbins <$> es) → cell_count es (cartesian xs) j = 1.
Proof.
  induction 1 as [|e x es xs Hex _ IH]; intros j Hj.
  - cbn in Hj. assert (j = 0) as -> by lia. done.
  - cbn [cartesian]. cbn [fmap list_fmap product foldr] in Hj.
    change (foldr Nat.mul 1 (nbins <$> es)) with (product (nbins <$> es)) in Hj.
    assert (0 < product (nbins <$> es)) as HP by nia.
    rewrite cell_count_cons by done.
    rewrite Hex, IH; [done|by apply Nat.mod_upper_bound; lia|].
    apply Nat.Div0.div_lt_upper_bound. lia.
Qed.

(** ** The volumes of a grid of points between its own edges *)

Lemma nbins_midpoints (l : list Qc) :
  nbins (midpoints (finite l)) = length (interior l).
Proof.
  unfold nbins, finite.
  rewrite length_midpoints, length_fmap, length_interior. lia.
Qed.

Lemma interior_one_per_bin (l : list Qc) (i : nat) :
  StronglySorted Qclt l → i < nbins (midpoints (finite l)) →
  length (filter (λ a, bin_of (midpoints (finite l)) a = Some i)
            (finite (interior l))) = 1.
Proof.
  intros Hsorted Hi. rewrite count_indexed.
  - rewrite decide_True; [done|].
    unfold finite at 1. by rewrite length_fmap, <-nbins_midpoints.
  - intros k y. unfold finite at 1. rewrite list_lookup_fmap.
    destruct (interior l !! k) as [x|] eqn:Hk; [|done].
    intros [= <-]. by apply interior_point_bin.
Qed.

Lemma has_empty_bin_cons2 (x y : npfloat) (t : list npfloat) :
  has_empty_bin (x :: y :: t)
  = fle (fsub y x) (Fin 0%Qc) || has_empty_bin (y :: t).
Proof. reflexivity. Qed.

Lemma midpoints_increase (l : list Qc) :
  StronglySorted Qclt l → has_empty_bin (midpoints (finite l)) = false.
Proof.
  induction 1 as [|a l Hl IH Ha]; [done|].
  destruct l as [|b [|c l]]; [done..|].
  change (finite (a :: b :: c :: l))
    with (Fin a :: Fin b :: finite (c :: l)).
  rewrite midpoints_cons2.
  change (Fin b :: finite (c :: l)) with (finite (b :: c :: l)) in *.
  change (finite (b :: c :: l)) with (Fin b :: Fin c :: finite l) in IH |- * at 1.
  rewrite midpoints_cons2 in IH |- *.
  rewrite has_empty_bin_cons2, IH, orb_false_r.
  apply Forall_cons_1 in Ha as [Hab [Hac _]%Forall_cons_1].
  cbn. rewrite decide_False by done. cbn.
  apply bool_decide_eq_false_2, Qclt_not_le.
  match goal with
  | |- (_ < ?t)%Qc => replace t with ((c - a) * / 2)%Qc by (field; done)
  end.
  replace (Q2Qc 0) with (0 * / 2)%Qc by ring.
  apply Qcmult_lt_compat_r; [apply half_pos|].
  by apply Qclt_minus_iff in Hac.
Qed.

Lemma cartesian_rows {A} (xs : list (list A)) :
  Forall (λ p, length p = length xs) (cartesian xs).
Proof.
  induction xs as [|x xs IH]; [by repeat constructor|].
  cbn [cartesian]. apply Forall_forall. intros p Hp.
  apply list_elem_of_bind in Hp as (a & Hp & _).
  apply list_elem_of_fmap in Hp as (p' & -> & Hp').
  rewrite Forall_forall in IH. cbn [length]. by rewrite (IH _ Hp').
Qed.

Lemma forallb_Forall {A} (f : A → bool) (l : list A) :
  Forall (λ x, f x = true) l → forallb f l = true.
Proof. induction 1 as [|x l Hx _ IH]; [done|]. cbn. by rewrite Hx, IH. Qed.

Lemma grid_accepted (ls : list (list Qc)) (xs : list (list npfloat)) :
  ls ≠ [] → length xs = length ls →
  Forall (λ l, StronglySorted Qclt l ∧ 3 ≤ length l) ls →
  histogramdd_accepts (cartesian xs) (edges_from_points (finite <$> ls)) = true.
Proof.
  intros Hne Hlen Hall. unfold histogramdd_accepts, edges_from_points.
  rewrite !andb_true_iff. split; [split|].
  - apply bool_decide_eq_true_2. by destruct ls.
  - apply forallb_Forall.
    eapply Forall_impl; [apply cartesian_rows|]. intros p Hp. cbn beta in Hp.
    apply bool_decide_eq_true_2. by rewrite !length_fmap, Hp.
  - apply forallb_Forall.
    rewrite <-list_fmap_compose. apply Forall_fmap.
    eapply Forall_impl; [exact Hall|]. intros l [Hs Hl]. cbn.
    rewrite midpoints_increase by done.
    rewrite andb_true_r. apply bool_decide_eq_true_2.
    rewrite length_midpoints. unfold finite. rewrite length_fmap. lia.
Qed.

Lemma one_point_per_cell_volumes (edges points : list (list npfloat)) :
  histogramdd_accepts points edges = true →
  (∀ j, j < product (nbins <$> edges) → cell_count edges points j = 1) →
  0 < length points →
  histogramdd_volumes edges points
  = Return (replicate (product (nbins <$> edges))
              (Fin (1 / Qn (length points)))).
Proof.
  intros Hacc Hone Hpos. rewrite histogramdd_volumes_accepted by done.
  f_equal. apply list_eq. intros j.
  rewrite list_lookup_fmap.
  destruct (decide (j < product (nbins <$> edges))) as [Hj|Hj].
  - rewrite lookup_seq_lt, lookup_replicate_2 by done. cbn [fmap option_fmap option_map Nat.add].
    rewrite (Hone j Hj). unfold float_of_nat, one. cbn [fmul].
    rewrite fdiv_fin.
    + by rewrite Qn_S, Qn_0, Qcplus_0_l, Qcmult_1_l.
    + intros [H0|H0]%Qcmult_integral; revert H0; apply Qn_nonzero; lia.
  - rewrite lookup_seq_ge by lia. symmetry. apply lookup_replicate_None. lia.
Qed.

Lemma grid_rows_cells (ls : list (list Qc)) :
  product (nbins <$> edges_from_points (finite <$> ls)) = length (grid_rows ls).
Proof.
  unfold grid_rows, edges_from_points.
  rewrite length_cartesian, <-!list_fmap_compose. f_equal.
  apply list_fmap_ext. intros _ l _. cbn.
  rewrite nbins_midpoints. unfold finite. by rewrite length_fmap.
Qed.

Lemma product_pos (l : list nat) : Forall (λ n, 0 < n) l → 0 < product l.
Proof. induction 1; cbn; [lia|]. fold (product l). nia. Qed.

Lemma np_sum_replicate (n : nat) (v : Qc) :
  np_sum (replicate n (Fin v)) = Fin (Qn n * v)%Qc.
Proof.
  unfold np_sum.
  assert (∀ acc, foldl fadd (Fin acc) (replicate n (Fin v))
                 = Fin (acc + Qn n * v)%Qc) as Hgen.
  { induction n as [|n IH]; intros acc.
    - cbn. f_equal. rewrite Qn_0. ring.
    - cbn [replicate foldl fadd]. rewrite IH, Qn_S. f_equal. ring. }
  rewrite Hgen. f_equal. ring.
Qed.

Lemma grid_rows_pos (ls : list (list Qc)) :
  Forall (λ l, StronglySorted Qclt l ∧ 3 ≤ length l) ls →
  0 < length (grid_rows ls).
Proof.
  intros Hall. rewrite <-grid_rows_cells. apply product_pos, Forall_fmap.
  unfold edges_from_points. apply Forall_fmap, Forall_fmap.
  eapply Forall_impl; [exact Hall|]. intros l [_ Hl]. cbn.
  rewrite nbins_midpoints, length_interior. lia.
Qed.

Lemma grid_rows_volumes (ls : list (list Qc)) :
  ls ≠ [] →
  Forall (λ l, StronglySorted Qclt l ∧ 3 ≤ length l) ls →
  histogramdd_volumes (edges_from_points (finite <$> ls)) (grid_rows ls)
  = Return (replicate (length (grid_rows ls))
              (Fin (1 / Qn (length (grid_rows ls))))).
Proof.
  intros Hne Hall. pose proof (grid_rows_pos ls Hall) as Hpos.
  rewrite one_point_per_cell_volumes, grid_rows_cells; [done| | |done].
  - apply grid_accepted; [done|by rewrite length_fmap|done].
  - apply cell_count_cartesian. unfold edges_from_points.
    rewrite <-list_fmap_compose. apply Forall2_fmap, Forall_Forall2_diag.
    eapply Forall_impl; [exact Hall|]. intros l [Hs _] i Hi.
    by apply interior_one_per_bin.
Qed.

Lemma equal_shares_sum (n : nat) :
  0 < n → np_sum (replicate n (Fin (1 / Qn n))) = Fin 1.
Proof.
  intros Hpos. rewrite np_sum_replicate. f_equal.
  pose proof (Qn_nonzero _ Hpos). field. done.
Qed.

(** X13.  For strictly increasing ladders of at least three entries,
    evenly spaced or not, [histogramdd_volumes] on the edges
    [edges_from_points] gives for the ladders and the grid of their
    interior points returns one volume per point, every volume [1/N] for
    [N] points, and the volumes sum to 1. *)
Theorem grid_volumes_are_equal_shares (ls : list (list Qc)) :
  ls ≠ [] →
  Forall (λ l, StronglySorted Qclt l ∧ 3 ≤ length l) ls →
  ∃ volume,
    histogramdd_volumes (edges_from_points (finite <$> ls)) (grid_rows ls)
    = Return volume
    ∧ volume = replicate (length (grid_rows ls))
                 (Fin (1 / Qn (length (grid_rows ls))))
    ∧ np_sum volume = Fin 1.
Proof.
  intros Hne Hall. eexists. split; [by apply grid_rows_volumes|].
  split; [done|]. by apply equal_shares_sum, grid_rows_pos.
Qed.

Lemma grid_volumes_are_equal_shares_witness :
  (uneven_ladders ≠ []
   ∧ Forall (λ l, StronglySorted Qclt l ∧ 3 ≤ length l) uneven_ladders)
  ∧ ∃ volume,
      histogramdd_volumes (edges_from_points (finite <$> uneven_ladders))
        (grid_rows uneven_ladders)
      = Return volume
      ∧ volume = replicate (length (grid_rows uneven_ladders))
                   (Fin (1 / Qn (length (grid_rows uneven_ladders))))
      ∧ np_sum volume = Fin 1.
Proof.
  assert (uneven_ladders ≠ []) as H1 by discriminate.
  assert (Forall (λ l, StronglySorted Qclt l ∧ 3 ≤ length l) uneven_ladders)
    as H2.
  { repeat first [apply Forall_cons_2 | apply Forall_nil_2 | split
                 | apply SSorted_cons | apply SSorted_nil
                 | reflexivity | (cbn; lia)]. }
  split; [exact (conj H1 H2)|].
  exact (grid_volumes_are_equal_shares uneven_ladders H1 H2).
Defined.

(** ** The order of the points *)

Lemma cartesian_lookup_inv {A} (x : list A) (rest : list (list A)) k q :
  cartesian (x :: rest) !! k = Some q →
  ∃ i a r p, x !! i = Some a ∧ cartesian rest !! r = Some p
             ∧ q = a :: p ∧ k = i * length (cartesian rest) + r.
Proof.
  cbn [cartesian]. revert k. induction x as [|a x IH]; intros k; [done|].
  cbn [mbind list_bind]. intros Hk.
  apply lookup_app_Some in Hk as [Hk|[Hge Hk]].
  - rewrite list_lookup_fmap in Hk.
    destruct (cartesian rest !! k) as [p|] eqn:Hp; [|done].
    injection Hk as <-. exists 0, a, k, p. by repeat split.
  - rewrite length_fmap in Hge, Hk.
    apply IH in Hk as (i & b & r & p & Hi & Hr & -> & Hk).
    exists (S i), b, r, p. repeat split; [done..|]. cbn. lia.
Qed.

(** X14.  For strictly increasing ladders, the points of the Cartesian
    product of the interior entries, in row-major ('ij') order, lie cell
    by cell in the histogram of the edges [edges_from_points] gives for
    those ladders: point [i] lies in the cell at position [i] of the
    flattened histogram. *)
Theorem grid_points_are_ij_ordered (ls : list (list Qc)) :
  Forall (StronglySorted Qclt) ls →
  ∀ i p, grid_rows ls !! i = Some p →
         flat_bin (edges_from_points (finite <$> ls)) p = Some i.
Proof.
  induction 1 as [|l ls Hl _ IH]; intros k q Hk.
  - destruct k; [|done]. by injection Hk as <-.
  - unfold grid_rows in Hk. cbn [fmap list_fmap] in Hk.
    apply cartesian_lookup_inv in Hk as (i & a & r & p & Hi & Hr & -> & ->).
    fold (grid_rows ls) in Hr |- *.
    unfold finite in Hi. rewrite list_lookup_fmap in Hi.
    destruct (interior l !! i) as [x|] eqn:Hx; [|done]. injection Hi as <-.
    unfold edges_from_points. cbn [fmap list_fmap flat_bin].
    rewrite (interior_point_bin l i x Hl Hx). cbn [mbind option_bind].
    fold (edges_from_points (finite <$> ls)).
    rewrite (IH r p Hr). cbn [mbind option_bind].
    by rewrite grid_rows_cells.
Qed.

Lemma grid_points_are_ij_ordered_witness :
  Forall (StronglySorted Qclt) uneven_ladders
  ∧ ∀ i p, grid_rows uneven_ladders !! i = Some p →
           flat_bin (edges_from_points (finite <$> uneven_ladders)) p = Some i.
Proof.
  assert (Forall (StronglySorted Qclt) uneven_ladders) as H1.
  { repeat first [apply Forall_cons_2 | apply Forall_nil_2
                 | apply SSorted_cons | apply SSorted_nil | reflexivity]. }
  split; [exact H1|].
  exact (grid_points_are_ij_ordered uneven_ladders H1).
Defined.

(** ** The bounding layer among the edges *)

Lemma interior_split {A} (l : list A) :
  2 ≤ length l → ∃ a z, l = a :: interior l ++ [z].
Proof.
  intros Hlen. destruct l as [|a l]; [simpl in Hlen; lia|].
  destruct l as [|b l _] using rev_ind; [simpl in Hlen; lia|].
  exists a, b. unfold interior. cbn [tail]. by rewrite removelast_last.
Qed.

Lemma bin_of_first (post : list Qc) (x : Qc) :
  Forall (λ q, x < q)%Qc post →
  bin_of (midpoints (finite (x :: post))) (Fin x) = None.
Proof.
  intros Hgt. unfold bin_of. cbn zeta.
  pose proof (edges_up_to_point [] post x (Forall_nil_2 _) Hgt) as Hk.
  cbn [app length] in Hk. by rewrite Hk.
Qed.

Lemma midpoints_not_last (pre : list Qc) (x : Qc) :
  Forall (λ q, q < x)%Qc pre →
  Forall (λ e, e ≠ Fin x) (midpoints (finite (pre ++ [x]))).
Proof.
  induction 1 as [|a pre Ha Hpre IH]; [constructor|].
  assert (∀ b, (b ≤ x)%Qc → Fin ((b + a) / 2)%Qc ≠ Fin x) as Hmean.
  { intros b Hb [= Heq]. apply (Qclt_not_le _ _ Ha).
    assert (a = x + x - b)%Qc as -> by (rewrite <-Heq; field; done).
    apply Qcle_minus_iff.
    replace (x + x - b + - x)%Qc with (x + - b)%Qc by ring.
    by apply Qcle_minus_iff in Hb. }
  destruct pre as [|b pre].
  - repeat constructor. apply Hmean, Qcle_refl.
  - change (finite ((a :: b :: pre) ++ [x]))
      with (Fin a :: Fin b :: finite (pre ++ [x])).
    rewrite midpoints_cons2. constructor; [|exact IH].
    apply Forall_cons_1 in Hpre as [Hb _]. by apply Hmean, Qclt_le_weak.
Qed.

Lemma bin_of_last (pre : list Qc) (x : Qc) :
  Forall (λ q, q < x)%Qc pre →
  bin_of (midpoints (finite (pre ++ [x]))) (Fin x) = None.
Proof.
  intros Hlt. unfold bin_of, nbins. cbn zeta.
  rewrite (edges_up_to_point pre [] x) by done.
  assert (length (finite (pre ++ [x])) = S (length pre)) as Hlen.
  { unfold finite. rewrite length_fmap, length_app. cbn [length]. lia. }
  rewrite length_midpoints, !Hlen.
  destruct (decide (length pre = 0)) as [|Hpre]; [done|].
  rewrite decide_False by lia.
  rewrite bool_decide_eq_false_2; [done|].
  intros Hlast. apply last_Some_elem_of in Hlast.
  pose proof (midpoints_not_last pre x Hlt) as Hne.
  rewrite Forall_forall in Hne. by apply (Hne _ Hlast).
Qed.

Lemma ladder_one_per_bin (l : list Qc) (i : nat) :
  StronglySorted Qclt l → i < nbins (midpoints (finite l)) →
  length (filter (λ a, bin_of (midpoints (finite l)) a = Some i) (finite l)) = 1.
Proof.
  intros Hsorted Hi.
  pose proof (interior_one_per_bin l i Hsorted Hi) as Hint.
  rewrite nbins_midpoints, length_interior in Hi.
  destruct (interior_split l) as (a & z & Hl); [lia|].
  assert (bin_of (midpoints (finite l)) (Fin a) = None) as Ha.
  { rewrite Hl. apply bin_of_first.
    rewrite Hl in Hsorted. apply StronglySorted_cons in Hsorted. tauto. }
  assert (bin_of (midpoints (finite l)) (Fin z) = None) as Hz.
  { rewrite Hl, app_comm_cons. apply bin_of_last.
    rewrite Hl, app_comm_cons in Hsorted. apply Forall_forall. intros q Hq.
    eapply (StronglySorted_app_1_elem_of Qclt); [exact Hsorted|done|left]. }
  revert Hint Ha Hz. generalize (midpoints (finite l)). intros e Hint Ha Hz.
  rewrite Hl. unfold finite.
  rewrite fmap_cons, fmap_app, filter_cons_False, filter_app, length_app
    by (rewrite Ha; done).
  fold (finite (interior l)). rewrite Hint.
  cbn [fmap list_fmap]. by rewrite filter_cons_False by (rewrite Hz; done).
Qed.

Lemma seq_sorted (a n : nat) : StronglySorted lt (seq a n).
Proof.
  revert a. induction n as [|n IH]; intros a; [constructor|].
  cbn [seq]. constructor; [apply IH|].
  apply Forall_forall. intros k Hk%elem_of_seq. lia.
Qed.

Lemma Qn_lt (j k : nat) : j < k → (Qn j < Qn k)%Qc.
Proof.
  intros Hjk. unfold Qn, Qclt, Qc_of_Z. cbn.
  unfold Qlt. cbn. lia.
Qed.

Lemma progression_sorted (s step : Qc) (n : nat) :
  (0 < step)%Qc → StronglySorted Qclt (progression s step n).
Proof.
  intros Hstep. unfold progression.
  eapply StronglySorted_fmap; [|apply seq_sorted].
  intros j k Hjk. cbn. apply Qcplus_lt_mono_r.
  apply Qcmult_lt_compat_r; [done|by apply Qn_lt].
Qed.

(** ** The volumes of the grid of the first layer *)

Lemma Qcplus_pos (x y : Qc) : (0 < x → 0 < y → 0 < x + y)%Qc.
Proof.
  intros Hx Hy. apply Qclt_trans with (x + 0)%Qc.
  - by rewrite Qcplus_0_r.
  - by apply Qcplus_lt_mono_l.
Qed.

Lemma Qcmult_pos (x y : Qc) : (0 < x → 0 < y → 0 < x * y)%Qc.
Proof.
  intros Hx Hy. replace 0%Qc with (0 * y)%Qc by ring.
  by apply Qcmult_lt_compat_r.
Qed.

Lemma inside_domain_width (r : Qc) (a : axis) :
  (r < 1)%Qc → strictly_inside r a → (low a < high a)%Qc.
Proof.
  intros Hr [Hlo Hhi]. unfold rect_low, rect_high, rect_width in *.
  apply Qclt_minus_iff in Hlo, Hhi, Hr.
  pose proof (Qcplus_pos _ _ Hlo Hhi) as Hsum.
  destruct (Qclt_le_dec (low a) (high a)) as [|Hle]; [done|exfalso].
  apply (Qclt_not_le _ _ Hsum).
  match goal with
  | |- (?t ≤ _)%Qc =>
      replace t with ((high a + - low a) * (1 + - r))%Qc by (field; done)
  end.
  replace 0%Qc with (0 * (1 + - r))%Qc by ring.
  apply Qcmult_le_compat_r; [|by apply Qclt_le_weak].
  apply Qcle_minus_iff in Hle.
  apply Qcopp_le_compat in Hle.
  replace (- (low a + - high a))%Qc with (high a + - low a)%Qc in Hle by ring.
  exact Hle.
Qed.

Lemma layer1_rungs_sorted (r : Qc) (a : axis) :
  (0 < r < 1)%Qc → 0 < cells a → strictly_inside r a →
  StronglySorted Qclt (layer1_rungs r a).
Proof.
  intros [Hr0 Hr1] Hn Hin. apply progression_sorted.
  apply Qcmult_pos.
  - unfold rect_width. apply Qcmult_pos; [done|].
    apply inside_domain_width in Hin; [|done].
    by apply Qclt_minus_iff in Hin.
  - apply Qcinv_pos. rewrite <-Qn_0. by apply Qn_lt.
Qed.

Lemma length_layer1_rungs (r : Qc) (a : axis) :
  length (layer1_rungs r a) = cells a + 2.
Proof. apply length_progression. Qed.

Lemma layer1_ladders_rungs (r : Qc) (axes : list axis) :
  Forall (λ a, 0 < cells a ∧ strictly_inside r a) axes →
  layer1_ladder r <$> axes = finite <$> (layer1_rungs r <$> axes).
Proof.
  intros Hall. rewrite <-list_fmap_compose.
  apply Forall_fmap_ext_1. eapply Forall_impl; [exact Hall|].
  intros a [Hn _]. by apply layer1_ladder_rungs.
Qed.

Lemma layer1_rungs_regular (r : Qc) (axes : list axis) :
  (0 < r < 1)%Qc →
  Forall (λ a, 0 < cells a ∧ strictly_inside r a) axes →
  Forall (λ l, StronglySorted Qclt l ∧ 3 ≤ length l) (layer1_rungs r <$> axes).
Proof.
  intros Hr Hall. apply Forall_fmap. eapply Forall_impl; [exact Hall|].
  intros a [Hn Hin]. cbn. split; [by apply layer1_rungs_sorted|].
  rewrite length_layer1_rungs. lia.
Qed.

(** With the points of the bounding layer in the sample. *)
Lemma bounding_layer_volumes (ls : list (list Qc)) :
  ls ≠ [] →
  Forall (λ l, StronglySorted Qclt l ∧ 3 ≤ length l) ls →
  histogramdd_volumes (edges_from_points (finite <$> ls))
    (cartesian (finite <$> ls))
  = Return (replicate (product ((λ l, length l - 2) <$> ls))
              (Fin (1 / Qn (product (length <$> ls))))).
Proof.
  intros Hne Hall.
  assert (length (cartesian (finite <$> ls)) = product (length <$> ls)) as Hlen.
  { rewrite length_cartesian, <-list_fmap_compose. f_equal.
    apply list_fmap_ext. intros _ l _. cbn. unfold finite. by rewrite length_fmap. }
  rewrite one_point_per_cell_volumes.
  - rewrite Hlen. do 2 f_equal. unfold edges_from_points.
    rewrite <-!list_fmap_compose. f_equal.
    apply list_fmap_ext. intros _ l _. cbn.
    by rewrite nbins_midpoints, length_interior.
  - apply grid_accepted; [done|by rewrite length_fmap|done].
  - apply cell_count_cartesian. unfold edges_from_points.
    rewrite <-list_fmap_compose. apply Forall2_fmap, Forall_Forall2_diag.
    eapply Forall_impl; [exact Hall|].
    intros l [Hs _] i Hi. by apply ladder_one_per_bin.
  - rewrite Hlen. apply product_pos, Forall_fmap.
    eapply Forall_impl; [exact Hall|]. intros l [_ Hl]. cbn. lia.
Qed.

Lemma layer1_interior_rows (r : Qc) (axes : list axis) :
  Forall (λ a, 0 < cells a ∧ strictly_inside r a) axes →
  cartesian (interior <$> (layer1_ladder r <$> axes))
  = grid_rows (layer1_rungs r <$> axes).
Proof.
  intros Hall. rewrite layer1_ladders_rungs by done. unfold grid_rows.
  f_equal. rewrite <-!list_fmap_compose.
  apply list_fmap_ext. intros _ a _. cbn. apply interior_fmap.
Qed.

Lemma layer1_interior_count (r : Qc) (axes : list axis) :
  length (grid_rows (layer1_rungs r <$> axes)) = product (cells <$> axes).
Proof.
  unfold grid_rows. rewrite length_cartesian, <-!list_fmap_compose. f_equal.
  apply list_fmap_ext. intros _ a _. cbn. unfold finite.
  rewrite length_fmap, length_interior, length_layer1_rungs. lia.
Qed.

(** X15.  For a ratio strictly between 0 and 1, positive cell counts whose
    doubles are values of the type of the array and a hyperrectangle
    strictly inside the domain, the ladders of
    [center_and_layer1_points], their edges by [edges_from_points] and
    the grid of their interior points give [histogramdd_volumes] one
    volume per cell of the hyperrectangle, each [1/N] with [N] the
    product of the cell counts, summing to 1. *)
Theorem layer1_centres_share_equally (dt : int_dtype) (r : Qc) (axes : list axis) :
  (0 < r < 1)%Qc → axes ≠ [] →
  Forall (λ a, 0 < cells a ∧ strictly_inside r a) axes →
  Forall (doubles_within dt) axes →
  ∃ points interior_and_layer1 volume,
    center_and_layer1_points (cpe_of dt axes) (center_of axes) (Fin r)
      (domain_of axes)
    = Return (Some (points, interior_and_layer1))
    ∧ histogramdd_volumes (edges_from_points interior_and_layer1)
        (cartesian (interior <$> interior_and_layer1))
      = Return volume
    ∧ volume = replicate (product (cells <$> axes))
                 (Fin (1 / Qn (product (cells <$> axes))))
    ∧ np_sum volume = Fin 1.
Proof.
  intros Hr Hne Hall Hdt.
  rewrite layer1_call by (try apply Qclt_le_weak; tauto).
  destruct (mesh_points_returns (layer1_ladder r <$> axes)) as [p ->].
  pose proof (layer1_rungs_regular r axes Hr Hall) as Hreg.
  assert (layer1_rungs r <$> axes ≠ []) as Hne' by by destruct axes.
  eexists p, (layer1_ladder r <$> axes), _. split; [done|].
  rewrite layer1_interior_rows by done.
  rewrite layer1_ladders_rungs by done.
  rewrite grid_rows_volumes, layer1_interior_count by done.
  split; [done|]. split; [done|].
  apply equal_shares_sum. rewrite <-(layer1_interior_count r).
  by apply grid_rows_pos.
Qed.

Lemma layer1_centres_share_equally_witness :
  ((0 < Q2Qc (1 # 2) < 1)%Qc ∧ unit_square ≠ []
   ∧ Forall (λ a, 0 < cells a ∧ strictly_inside (Q2Qc (1 # 2)) a) unit_square
   ∧ Forall (doubles_within int64) unit_square)
  ∧ ∃ points interior_and_layer1 volume,
      center_and_layer1_points (cpe_of int64 unit_square) (center_of unit_square)
        (Fin (Q2Qc (1 # 2))) (domain_of unit_square)
      = Return (Some (points, interior_and_layer1))
      ∧ histogramdd_volumes (edges_from_points interior_and_layer1)
          (cartesian (interior <$> interior_and_layer1))
        = Return volume
      ∧ volume = replicate (product (cells <$> unit_square))
                   (Fin (1 / Qn (product (cells <$> unit_square))))
      ∧ np_sum volume = Fin 1.
Proof.
  assert ((0 < Q2Qc (1 # 2) < 1)%Qc) as H1 by (split; reflexivity).
  assert (unit_square ≠ []) as H2 by discriminate.
  assert (Forall (λ a, 0 < cells a ∧ strictly_inside (Q2Qc (1 # 2)) a)
            unit_square) as H3.
  { repeat constructor; cbn; lia. }
  assert (Forall (doubles_within int64) unit_square) as H4.
  { repeat constructor; by vm_compute. }
  split; [exact (conj H1 (conj H2 (conj H3 H4)))|].
  exact (layer1_centres_share_equally int64 (Q2Qc (1 # 2)) unit_square
           H1 H2 H3 H4).
Defined.

(** X16.  Under the conditions of X15, when the points of the bounding
    layer are left in the sample (every point of the grid of
    [center_and_layer1_points], as rows),
    [histogramdd_volumes] still returns one volume per cell of the
    hyperrectangle, but each is 1 over the number of all points: the
    points of the bounding layer fall in no bin and are counted in
    [points.shape[0]]. *)
Theorem bounding_layer_counts_as_points (dt : int_dtype) (r : Qc) (axes : list axis) :
  (0 < r < 1)%Qc → axes ≠ [] →
  Forall (λ a, 0 < cells a ∧ strictly_inside r a) axes →
  Forall (doubles_within dt) axes →
  ∃ points interior_and_layer1,
    center_and_layer1_points (cpe_of dt axes) (center_of axes) (Fin r)
      (domain_of axes)
    = Return (Some (points, interior_and_layer1))
    ∧ histogramdd_volumes (edges_from_points interior_and_layer1)
        (cartesian interior_and_layer1)
      = Return (replicate (product (cells <$> axes))
                  (Fin (1 / Qn (product ((λ a, cells a + 2) <$> axes))))).
Proof.
  intros Hr Hne Hall Hdt.
  rewrite layer1_call by (try apply Qclt_le_weak; tauto).
  destruct (mesh_points_returns (layer1_ladder r <$> axes)) as [p ->].
  pose proof (layer1_rungs_regular r axes Hr Hall) as Hreg.
  assert (layer1_rungs r <$> axes ≠ []) as Hne' by by destruct axes.
  eexists p, (layer1_ladder r <$> axes). split; [done|].
  rewrite layer1_ladders_rungs by done.
  rewrite bounding_layer_volumes by done.
  rewrite <-!list_fmap_compose.
  rewrite (list_fmap_ext ((λ l, length l - 2) ∘ layer1_rungs r) cells axes).
  2:{ intros _ a _. cbn. rewrite length_layer1_rungs. lia. }
  rewrite (list_fmap_ext (length ∘ layer1_rungs r) (λ a, cells a + 2) axes).
  2:{ intros _ a _. cbn. apply length_layer1_rungs. }
  done.
Qed.

Lemma bounding_layer_counts_as_points_witness :
  ((0 < Q2Qc (1 # 2) < 1)%Qc ∧ unit_square ≠ []
   ∧ Forall (λ a, 0 < cells a ∧ strictly_inside (Q2Qc (1 # 2)) a) unit_square
   ∧ Forall (doubles_within int64) unit_square)
  ∧ ∃ points interior_and_layer1,
      center_and_layer1_points (cpe_of int64 unit_square) (center_of unit_square)
        (Fin (Q2Qc (1 # 2))) (domain_of unit_square)
      = Return (Some (points, interior_and_layer1))
      ∧ histogramdd_volumes (edges_from_points interior_and_layer1)
          (cartesian interior_and_layer1)
        = Return (replicate (product (cells <$> unit_square))
                    (Fin (1 / Qn (product ((λ a, cells a + 2) <$> unit_square))))).
Proof.
  assert ((0 < Q2Qc (1 # 2) < 1)%Qc) as H1 by (split; reflexivity).
  assert (unit_square ≠ []) as H2 by discriminate.
  assert (Forall (λ a, 0 < cells a ∧ strictly_inside (Q2Qc (1 # 2)) a)
            unit_square) as H3.
  { repeat constructor; cbn; lia. }
  assert (Forall (doubles_within int64) unit_square) as H4.
  { repeat constructor; by vm_compute. }
  split; [exact (conj H1 (conj H2 (conj H3 H4)))|].
  exact (bounding_layer_counts_as_points int64 (Q2Qc (1 # 2)) unit_square
           H1 H2 H3 H4).
Defined.

(** ** The point array as a sample *)

Lemma product_above_length (l : list nat) :
  Forall (λ n, 3 ≤ n) l → length l < product l.
Proof.
  induction 1 as [|n l Hn _ IH]; cbn; [lia|]. fold (product l). nia.
Qed.

Lemma histogramdd_volumes_width (edges : list (list npfloat))
    (p : list npfloat) (points : list (list npfloat)) :
  length p ≠ length edges →
  histogramdd_volumes edges (p :: points) = Raise ValueError.
Proof.
  intros Hne. unfold histogramdd_volumes, histogramdd, histogramdd_accepts.
  cbn [forallb]. rewrite (bool_decide_eq_false_2 _ Hne).
  by rewrite andb_false_r.
Qed.

(** X17.  In two to four dimensions, for counts in an array of any
    integer type, the point array that [center_and_layer1_points]
    returns cannot be passed to
    [histogramdd_volumes] with the edges of the returned ladders: its rows
    are the dimensions, not the points, and the call raises
    [ValueError]. *)
Theorem generator_array_is_no_sample (dt : int_dtype) (r : Qc) (axes : list axis) :
  (r ≤ 1)%Qc → 2 ≤ length axes ≤ 4 →
  Forall (λ a, 0 < cells a ∧ strictly_inside r a) axes →
  ∃ points interior_and_layer1,
    center_and_layer1_points (cpe_of dt axes) (center_of axes) (Fin r)
      (domain_of axes)
    = Return (Some (Some points, interior_and_layer1))
    ∧ histogramdd_volumes_of_array (edges_from_points interior_and_layer1)
        points
      = Raise ValueError.
Proof.
  intros Hr Hlen Hall.
  assert (axes ≠ []) as Hne by (intros ->; simpl in Hlen; lia).
  destruct (inside_exists r axes Hne Hall) as [Hlo Hhi].
  rewrite layer1_call_passed by done.
  rewrite mesh_points_stack by by rewrite length_fmap.
  eexists _, _. split; [done|].
  unfold histogramdd_volumes_of_array, sample_rows. cbn [shape data].
  assert (length (ladder_of dt r <$> axes)
          < product (length <$> (ladder_of dt r <$> axes))) as Hmany.
  { rewrite <-(length_fmap length (ladder_of dt r <$> axes)).
    apply product_above_length.
    rewrite <-list_fmap_compose. apply Forall_fmap.
    eapply Forall_impl; [exact Hall|]. intros a [Hn _]. cbn.
    unfold ladder_of. rewrite length_linspace. lia. }
  pose proof (length_meshgrid_data (ladder_of dt r <$> axes)) as Hrows.
  assert (length (ladder_of dt r <$> axes) = length axes) as HL
    by apply length_fmap.
  revert Hmany Hrows HL. generalize (ladder_of dt r <$> axes).
  intros L Hmany Hrows HL.
  destruct L as [|x rest]; [simpl in HL; lia|].
  cbn [length chunks mbind result_bind].
  apply histogramdd_volumes_width.
  unfold edges_from_points. rewrite length_fmap, length_take.
  cbn [meshgrid_data] in Hrows |- *. apply Forall_cons_1 in Hrows as [Hx _].
  cbn [mjoin list_join]. rewrite length_app, Hx.
  revert Hmany. generalize (product (length <$> x :: rest)).
  cbn [length]. lia.
Qed.

Lemma generator_array_is_no_sample_witness :
  ((Q2Qc (1 # 2) ≤ 1)%Qc ∧ 2 ≤ length unit_square ≤ 4
   ∧ Forall (λ a, 0 < cells a ∧ strictly_inside (Q2Qc (1 # 2)) a) unit_square)
  ∧ ∃ points interior_and_layer1,
      center_and_layer1_points (cpe_of int64 unit_square) (center_of unit_square)
        (Fin (Q2Qc (1 # 2))) (domain_of unit_square)
      = Return (Some (Some points, interior_and_layer1))
      ∧ histogramdd_volumes_of_array (edges_from_points interior_and_layer1)
          points
        = Raise ValueError.
Proof.
  assert ((Q2Qc (1 # 2) ≤ 1)%Qc) as H1 by discriminate.
  assert (2 ≤ length unit_square ≤ 4) as H2 by (cbn; lia).
  assert (Forall (λ a, 0 < cells a ∧ strictly_inside (Q2Qc (1 # 2)) a)
            unit_square) as H3.
  { repeat constructor; cbn; lia. }
  split; [exact (conj H1 (conj H2 H3))|].
  exact (generator_array_is_no_sample int64 (Q2Qc (1 # 2)) unit_square H1 H2 H3).
Defined.

(** ** The density of finite volumes *)

Lemma np_sum_finite (l : list Qc) : np_sum (finite l) = Fin (Qsum l).
Proof.
  unfold np_sum.
  assert (∀ acc, foldl fadd (Fin acc) (finite l) = Fin (acc + Qsum l)%Qc)
    as Hgen.
  { induction l as [|x l IH]; intros acc.
    - cbn. f_equal. ring.
    - cbn [finite fmap list_fmap foldl fadd Qsum foldr].
      fold (finite l). fold (Qsum l). rewrite IH. f_equal. ring. }
  rewrite Hgen. f_equal. ring.
Qed.

Lemma inside_volumes_finite (vs : list Qc) (mask : list bool) :
  (filter (λ xm, xm.2 = true) (zip (finite vs) mask)).*1
  = finite (inside_volumes vs mask).
Proof.
  unfold inside_volumes. revert mask.
  induction vs as [|v vs IH]; intros [|b mask]; [done..|].
  change (zip (finite (v :: vs)) (b :: mask))
    with ((Fin v, b) :: zip (finite vs) mask).
  change (zip (v :: vs) (b :: mask)) with ((v, b) :: zip vs mask).
  destruct b.
  - rewrite !filter_cons_True by done. cbn. f_equal. apply IH.
  - rewrite !filter_cons_False by (cbn; done). apply IH.
Qed.

Lemma scaled_inside_finite (s : Qc) (vs : list Qc) (mask : list bool) :
  s ≠ 0%Qc →
  zip_with (λ v (b : bool), if b then fdiv v (Fin s) else Fin 0%Qc)
    (finite vs) mask
  = finite (scaled_inside s vs mask).
Proof.
  intros Hs. unfold scaled_inside. revert mask.
  induction vs as [|v vs IH]; intros [|b mask]; [done..|].
  cbn [finite fmap list_fmap zip_with]. fold (finite vs).
  rewrite IH. destruct b; [|done]. by rewrite fdiv_fin.
Qed.

Lemma Qsum_scaled_inside (s : Qc) (vs : list Qc) (mask : list bool) :
  Qsum (scaled_inside s vs mask) = (Qsum (inside_volumes vs mask) / s)%Qc.
Proof.
  unfold scaled_inside, inside_volumes. revert mask.
  assert (0 = 0 / s)%Qc as Hzero by (unfold Qcdiv; ring).
  induction vs as [|v vs IH]; intros [|b mask]; [exact Hzero..|].
  change (zip (v :: vs) (b :: mask)) with ((v, b) :: zip vs mask).
  cbn [zip_with Qsum foldr].
  fold (Qsum (zip_with (λ v (b : bool), if b then (v / s)%Qc else 0%Qc) vs mask)).
  rewrite IH. destruct b.
  - rewrite filter_cons_True by done. cbn [fmap list_fmap fst].
    unfold Qsum. cbn [foldr]. unfold Qcdiv. ring.
  - rewrite filter_cons_False by (cbn; done). unfold Qsum. ring.
Qed.

(** X18.  Lines 363-364 on finite volumes and a mask with one entry per
    point, when the volumes inside do not sum to 0: the density of a point
    inside is its volume over that sum, the density of a point outside is
    0, and the densities sum to 1. *)
Theorem density_sums_to_one (vs : list Qc) (mask : list bool) :
  length mask = length vs →
  Qsum (inside_volumes vs mask) ≠ 0%Qc →
  ∃ rho,
    density_of_mask (finite vs) (NdArray [length vs] mask) = Return rho
    ∧ rho = finite (scaled_inside (Qsum (inside_volumes vs mask)) vs mask)
    ∧ np_sum rho = Fin 1.
Proof.
  intros Hlen Hsum. eexists. split; [|split; [reflexivity|]].
  - replace (length vs) with (length (finite vs))
      by (unfold finite; apply length_fmap).
    rewrite density_of_mask_entries
      by (unfold finite; by rewrite length_fmap).
    rewrite inside_volumes_finite, np_sum_finite.
    by rewrite scaled_inside_finite.
  - rewrite np_sum_finite, Qsum_scaled_inside. f_equal. field. done.
Qed.

Lemma density_sums_to_one_witness :
  (length [true; false; true] = length [Q2Qc (1 # 4); Q2Qc (1 # 2); Q2Qc (1 # 4)]
   ∧ Qsum (inside_volumes [Q2Qc (1 # 4); Q2Qc (1 # 2); Q2Qc (1 # 4)]
             [true; false; true]) ≠ 0%Qc)
  ∧ ∃ rho,
      density_of_mask (finite [Q2Qc (1 # 4); Q2Qc (1 # 2); Q2Qc (1 # 4)])
        (NdArray [length [Q2Qc (1 # 4); Q2Qc (1 # 2); Q2Qc (1 # 4)]]
           [true; false; true])
      = Return rho
      ∧ rho = finite (scaled_inside
                        (Qsum (inside_volumes
                                 [Q2Qc (1 # 4); Q2Qc (1 # 2); Q2Qc (1 # 4)]
                                 [true; false; true]))
                        [Q2Qc (1 # 4); Q2Qc (1 # 2); Q2Qc (1 # 4)]
                        [true; false; true])
      ∧ np_sum rho = Fin 1.
Proof.
  assert (length [true; false; true]
          = length [Q2Qc (1 # 4); Q2Qc (1 # 2); Q2Qc (1 # 4)]) as H1
    by reflexivity.
  assert (Qsum (inside_volumes [Q2Qc (1 # 4); Q2Qc (1 # 2); Q2Qc (1 # 4)]
                  [true; false; true]) ≠ 0%Qc) as H2 by discriminate.
  split; [exact (conj H1 H2)|].
  exact (density_sums_to_one [Q2Qc (1 # 4); Q2Qc (1 # 2); Q2Qc (1 # 4)]
           [true; false; true] H1 H2).
Defined.

(** X19.  [simple_fun_approximation_uniform] returns for no arguments at
    all: every call ends in [ValueError], [IndexError] or [NameError]. *)
Theorem density_is_never_returned
    (points : ndarray npfloat) (volumes : list npfloat)
    (rect_domain : ndarray npfloat) :
  (∀ out, simple_fun_approximation_uniform points volumes rect_domain
          ≠ Return out)
  ∧ raises_within [ValueError; IndexError; NameError]
      (simple_fun_approximation_uniform points volumes rect_domain).
Proof.
  destruct (simple_fun_approximation_uniform_raises points volumes rect_domain)
    as (e & -> & He).
  split; [discriminate|exact He].
Qed.
